(** * SkyPilot agent plugin: remote-job lifecycle tracker

    Shallow embedding of
    [plugins/flytekit-skypilot/flytekitplugins/skypilot/agent.py]:
    the isolated launch worker ([WrappedProcess], [BlockingProcessHandler]),
    the per-job controller ([SkyTaskFuture]), the process-wide registry
    ([SkyTaskTracker]), the liveness check and the agent entry points
    ([SkyPilotAgent.create], [get], [delete]).

    Python objects that are mutated through several references (the
    controllers held by [_JOB_RESIGTRY], by their coroutines and by the
    caller of [register_sky_task]) live in an explicit heap and are named
    by address.  Calls into the provisioner, the object store and the
    logger are recorded, in order, in a trace. *)

From Stdlib Require Import ZArith.
From stdpp Require Import gmap strings list fin_maps fin_sets.

Local Open Scope string_scope.
Local Open Scope nat_scope.
Local Open Scope list_scope.

(** ** Data model *)

(** Modelled from the spec: [JobLaunchType] is declared in [metadata.py],
    which is not part of the sources; the agent only ever compares against
    [MANAGED]. *)
Inductive JobLaunchType := MANAGED | INTERACTIVE.

#[global] Instance JobLaunchType_eq_dec : EqDecision JobLaunchType.
Proof. solve_decision. Defined.

(** Modelled from the spec: [TaskStatus] is declared in [utils.py], which is
    not part of the sources. *)
Inductive TaskStatus := INIT | LAUNCHING | RUNNING | DONE.

#[global] Instance TaskStatus_eq_dec : EqDecision TaskStatus.
Proof. solve_decision. Defined.

(** Modelled from the spec: [EventHandler] ([utils.py]) is a set of four
    independent binary signals; "terminal" means that one of [failed],
    [cancel] or [finished] is set. *)
Record EventHandler := mkEventHandler {
  launch_done_event : bool;
  failed_event : bool;
  cancel_event : bool;
  finished_event : bool
}.

Definition EventHandler_new : EventHandler := mkEventHandler false false false false.

Definition is_terminal (eh : EventHandler) : bool :=
  failed_event eh || cancel_event eh || finished_event eh.

Definition set_launch_done (eh : EventHandler) : EventHandler :=
  mkEventHandler true (failed_event eh) (cancel_event eh) (finished_event eh).
Definition set_failed (eh : EventHandler) : EventHandler :=
  mkEventHandler (launch_done_event eh) true (cancel_event eh) (finished_event eh).
Definition set_cancel (eh : EventHandler) : EventHandler :=
  mkEventHandler (launch_done_event eh) (failed_event eh) true (finished_event eh).
Definition set_finished (eh : EventHandler) : EventHandler :=
  mkEventHandler (launch_done_event eh) (failed_event eh) (cancel_event eh) true.

(** The fields of a [TaskTemplate] that the agent reads:
    [custom["job_launch_type"]], [custom["cluster_name"]],
    [custom["task_name"]] and [container.args]. *)
Record TaskTemplate := mkTaskTemplate {
  custom_job_launch_type : JobLaunchType;
  custom_cluster_name : string;
  custom_task_name : string;
  container_args : list string
}.

(** [TaskRemotePathSetting] as the agent constructs it; [file_access] is
    kept as its [raw_output_prefix]. *)
Record TaskRemotePathSetting := mkTaskRemotePathSetting {
  file_access_raw_output_prefix : string;
  job_type : JobLaunchType;
  path_cluster_name : string;
  path_task_name : string
}.

(** [SkyPathSetting(task_level_prefix=..., unique_id=...)]. *)
Record SkyPathSetting := mkSkyPathSetting {
  task_level_prefix : string;
  tracker_unique_id : string
}.

(** [SkyPilotMetadata], the record crossing create/get/delete. *)
Record SkyPilotMetadata := mkSkyPilotMetadata {
  job_name : string;
  meta_cluster_name : string;
  task_metadata_prefix : string;
  tracker_hostname : string;
  job_launch_type : JobLaunchType
}.

(** Exceptions that the modelled code can see. *)
Inductive exn :=
| NotSupportedError
| AttributeError
| KeyError
| ValueError (msg : string)
| OtherError (msg : string)
| LaunchException (e : string) (tb : string)
| CancelledError.

#[global] Instance exn_eq_dec : EqDecision exn.
Proof. solve_decision. Defined.

Inductive outcome (A : Type) :=
| Returned (a : A)
| Raised (e : exn).
Arguments Returned {A} a.
Arguments Raised {A} e.

Definition bind_outcome {A B} (m : outcome A) (k : A -> outcome B) : outcome B :=
  match m with
  | Returned a => k a
  | Raised e => Raised e
  end.

(** ** Liveness check *)

(** Modelled from the spec: the staleness threshold is the provisioner's
    idle-autostop constant
    [sky.skylet.constants.CONTROLLER_IDLE_MINUTES_TO_AUTOSTOP], which the
    spec fixes at 600 seconds, that is 10 minutes. *)
Definition CONTROLLER_IDLE_MINUTES_TO_AUTOSTOP : Z := 10.

(** Instants and durations are counted in microseconds, the resolution of
    [datetime]; [timedelta.total_seconds() > s] for an integer [s] holds
    exactly when the duration exceeds [s * 10^6] microseconds. *)
Definition total_seconds_gt (time_diff : Z) (s : Z) : bool :=
  (s * 1000000 <? time_diff)%Z.

(** [check_remote_agent_alive]: [utc_time] is [datetime.now(timezone.utc)]
    and [last_upload_time] the result of
    [sky_path_setting.last_upload_time()], [None] when there is none. *)
Definition check_remote_agent_alive (utc_time : Z) (last_upload_time : option Z) : bool :=
  match last_upload_time with
  | Some t =>
      let time_diff := (utc_time - t)%Z in
      if total_seconds_gt time_diff (CONTROLLER_IDLE_MINUTES_TO_AUTOSTOP * 60) then false
      else true
  | None => true
  end.

(** ** The isolated launch worker *)

(** How an exception object fares on the pipe.  [Connection.send] pickles
    it in the worker and [Connection.recv] unpickles it in the parent:
    pickling can fail, which makes [send] raise, and unpickling can fail,
    which makes [recv] raise [err]. *)
Inductive pickling :=
| pickles
| send_raises
| recv_raises (err : exn).

(** What [multiprocessing.Process.run(self)], that is the target function,
    does in the worker: return, raise an [Exception] [e] whose formatted
    traceback is [tb] and which pickles as [pk] says, or die without
    reaching either [send] (a signal, or a [BaseException] that
    [except Exception] does not catch). *)
Inductive target_result :=
| target_returns
| target_raises (e : string) (tb : string) (pk : pickling)
| target_dies.

(** A message on the pipe: [None], or the pair [(e, tb)]. *)
Definition pipe_msg : Type := option (string * string).

(** [WrappedProcess.run]: what the worker leaves on [_cconn], each entry
    being what [recv] will do with it.  When [send((e, tb))] raises, it
    does so inside the [except] block: nothing is written and the error
    leaves [run]. *)
Definition WrappedProcess_run (r : target_result) : list (outcome pipe_msg) :=
  match r with
  | target_returns => [Returned None]
  | target_raises e tb pickles => [Returned (Some (e, tb))]
  | target_raises e tb send_raises => []
  | target_raises e tb (recv_raises err) => [Raised err]
  | target_dies => []
  end.

(** Whether [run] itself returns; when it does not, the error reaches the
    bootstrap code of the worker, which exits with code 1. *)
Definition run_returns (r : target_result) : bool :=
  match r with
  | target_returns => true
  | target_raises _ _ send_raises => false
  | target_raises _ _ _ => true
  | target_dies => false
  end.

(** The parent's view of a [WrappedProcess]: what is readable on [_pconn]
    and the cached [_exception]. *)
Record WrappedProcess := mkWrappedProcess {
  _pconn : list (outcome pipe_msg);
  _exception : pipe_msg
}.

(** The [exception] property: receive when [poll()] says there is data.
    A [recv] that raises has consumed the message and leaves [_exception]
    as it was. *)
Definition exception (p : WrappedProcess) : outcome pipe_msg * WrappedProcess :=
  match _pconn p with
  | Returned m :: rest => (Returned m, mkWrappedProcess rest m)
  | Raised err :: rest => (Raised err, mkWrappedProcess rest (_exception p))
  | [] => (Returned (_exception p), p)
  end.

(** The worker as the supervising coroutine meets it: it either never
    finishes by itself, or has finished with result [r] from the
    [at_tick]-th wake-up of the poller on. *)
Inductive worker :=
| runs_forever
| finishes (at_tick : nat) (r : target_result).

Definition exitcode (wk : worker) (now : nat) : option Z :=
  match wk with
  | runs_forever => None
  | finishes t r =>
      if (t <=? now)%nat then
        Some (if run_returns r then 0%Z else 1%Z)
      else None
  end.

(** The pipe as the parent finds it.  The worker writes before it exits
    and the parent reads only after it has seen the exit, so the pipe is
    given from the exit on. *)
Definition process_at (wk : worker) (now : nat) : WrappedProcess :=
  match wk with
  | runs_forever => mkWrappedProcess [] None
  | finishes t r =>
      if (t <=? now)%nat then mkWrappedProcess (WrappedProcess_run r) None
      else mkWrappedProcess [] None
  end.

Inductive process_call := terminate | join | close.

#[global] Instance process_call_eq_dec : EqDecision process_call.
Proof. solve_decision. Defined.

(** [BlockingProcessHandler.clean_up]. *)
Definition clean_up : list process_call := [terminate; join; close].

(** What a finished [status_poller] leaves behind; [poll_calls] are the
    calls made on the worker process. *)
Record poll_state := mkPollState {
  poll_result : outcome unit;
  poll_handler : EventHandler;
  poll_calls : list process_call;
  poll_process : WrappedProcess;
  poll_ticks : nat
}.

(** The code of [status_poller] after its [while] loop.  Both reads of
    [self._process.exception] come before [clean_up]: a read that raises
    leaves the coroutine with nothing called on the worker. *)
Definition status_poller_exit (p : WrappedProcess) (eh : EventHandler) (now : nat) : poll_state :=
  match exception p with
  | (Raised err, p1) => mkPollState (Raised err) eh [] p1 now
  | (Returned (Some _), p1) =>
      match exception p1 with
      | (Raised err, p2) => mkPollState (Raised err) eh [] p2 now
      | (Returned (Some (e, tb)), p2) =>
          mkPollState (Raised (LaunchException e tb)) eh clean_up p2 now
      | (Returned None, p2) => mkPollState (Returned tt) eh clean_up p2 now
      end
  | (Returned None, p1) => mkPollState (Returned tt) (set_launch_done eh) clean_up p1 now
  end.

(** [BlockingProcessHandler.status_poller].  [now] counts the sleeps done
    so far, [handler_at k] is the shared [EventHandler] as the other
    coroutines have left it at the [k]-th wake-up, [cancelled_at k] says
    whether the coroutine's task is cancelled during its [k]-th sleep, in
    which case [await asyncio.sleep] raises [CancelledError] and nothing
    after it runs, and [fuel] bounds the number of sleeps; [None] means
    the coroutine is still polling.  The sleep is the only [await], so
    the code after the loop cannot be cancelled. *)
Fixpoint status_poller (fuel : nat) (now : nat) (wk : worker)
    (handler_at : nat -> EventHandler) (cancelled_at : nat -> bool) : option poll_state :=
  match exitcode wk now with
  | Some _ => Some (status_poller_exit (process_at wk now) (handler_at now) now)
  | None =>
      match fuel with
      | O => None
      | S fuel' =>
          let now' := S now in
          if cancelled_at now' then
            Some (mkPollState (Raised CancelledError) (handler_at now') []
                              (process_at wk now') now')
          else if is_terminal (handler_at now') then
            Some (mkPollState (Returned tt) (handler_at now') clean_up (process_at wk now') now')
          else status_poller fuel' now' wk handler_at cancelled_at
      end
  end.

(** ** The world of the agent process *)

Definition addr : Type := nat.

(** A marker of the Remote Path Registry in the object store, addressed by
    the registry's [task_level_prefix] and [unique_id] and by the task's
    [unique_id]. *)
Definition marker : Type := string * string * string.

Inductive coro_kind := launch_coro | status_check_coro | status_upload_coro | zip_coro.

#[global] Instance coro_kind_eq_dec : EqDecision coro_kind.
Proof. solve_decision. Defined.

(** Calls that leave the modelled code, in the order they are made. *)
Inductive effect :=
| logger_warning (msg : string)
| logger_error (msg : string)
| setup_cloud_credential
| process_start (a : addr)
| create_task (k : coro_kind) (owner : option addr)
| touch_task_call (m : marker)
| delete_task_call (m : marker)
| put_error_log (a : addr) (error : string)
| cancel_callback_call (a : addr)
| sky_stop_call (cluster : string)
| pool_sky_down_call (cluster : string)
| to_proto_and_upload (job : string).

#[global] Instance effect_eq_dec : EqDecision effect.
Proof. solve_decision. Defined.

(** Modelled from the spec: the normalized phases, and the [Resource]
    returned by [get] (both come from the host SDK). *)
Module TaskExecution.
Inductive Phase := PENDING | RUNNING | SUCCEEDED | FAILED | ABORTED.
End TaskExecution.

Record Resource := mkResource {
  phase : TaskExecution.Phase;
  outputs : option string;
  message : option string
}.

(** What the agent takes from code that is not part of the sources: the
    provisioner ([sky]), the path helpers of [utils.py] and the status
    tables.  [sky_stop] may depend on everything done so far, and so may
    the two calls of [remote_deletion]: [pool_sky_down], the
    [Pool.starmap] that runs [remote_setup] with [sky.down] in a pool
    worker ([None] when it returns, [Some e] when the worker raised and
    [starmap] re-raises), and [upload_delete_proto], the
    [to_proto_and_upload] of the deletion record. *)
Record SkyEnv := mkSkyEnv {
  JOB_CONTROLLER_NAME : string;
  get_user_hash : string;
  raw_output_data_prefix : list string -> string;
  from_task_prefix : string -> JobLaunchType -> string -> string -> TaskRemotePathSetting;
  unique_id : TaskRemotePathSetting -> string;
  sky_stop : list effect -> string -> option exn;
  pool_sky_down : list effect -> SkyPilotMetadata -> option exn;
  upload_delete_proto : list effect -> SkyPilotMetadata -> option exn;
  get_task_status : TaskRemotePathSetting -> outcome string;
  LAUNCH_TYPE_TO_SKY_STATUS : JobLaunchType -> string -> outcome string;
  skypilot_status_to_flyte_phase : string -> outcome TaskExecution.Phase
}.

(** The only callable ever passed to [start]. *)
Inductive Callback := SkyTaskTracker_on_task_deleted.

(** [functools.partial(self.launch_failed_callback, cause=..., cancel_on_done=...)]. *)
Record done_callback := mkDoneCallback {
  cause : string;
  cancel_on_done : bool
}.

Record SkyTaskFuture := mkSkyTaskFuture {
  _task_kwargs : TaskTemplate;
  _launch_coro : option done_callback;
  _status_check_coro : option done_callback;
  _status_upload_coro : option done_callback;
  _sky_path_setting : TaskRemotePathSetting;
  _task_name : string;
  _cluster_name : string;
  _cancel_callback : option Callback;
  _event_handler : option EventHandler;
  _launched_process : bool;
  _task_status : TaskStatus
}.

Record world := mkWorld {
  heap : list SkyTaskFuture;
  _JOB_RESIGTRY : gmap string addr;
  SkyTaskTracker_sky_path_setting : option SkyPathSetting;
  object_store : gset marker;
  trace : list effect
}.

Definition initial_world : world := mkWorld [] ∅ None ∅ [].

Definition emit (e : effect) (w : world) : world :=
  mkWorld (heap w) (_JOB_RESIGTRY w) (SkyTaskTracker_sky_path_setting w)
          (object_store w) (trace w ++ [e]).

Definition alloc (c : SkyTaskFuture) (w : world) : addr * world :=
  (length (heap w),
   mkWorld (heap w ++ [c]) (_JOB_RESIGTRY w) (SkyTaskTracker_sky_path_setting w)
           (object_store w) (trace w)).

Definition store_object (a : addr) (c : SkyTaskFuture) (w : world) : world :=
  mkWorld (<[a := c]> (heap w)) (_JOB_RESIGTRY w) (SkyTaskTracker_sky_path_setting w)
          (object_store w) (trace w).

Definition set_registry (r : gmap string addr) (w : world) : world :=
  mkWorld (heap w) r (SkyTaskTracker_sky_path_setting w) (object_store w) (trace w).

Definition set_tracker_setting (sp : SkyPathSetting) (w : world) : world :=
  mkWorld (heap w) (_JOB_RESIGTRY w) (Some sp) (object_store w) (trace w).

Definition set_object_store (s : gset marker) (w : world) : world :=
  mkWorld (heap w) (_JOB_RESIGTRY w) (SkyTaskTracker_sky_path_setting w) s (trace w).

(** Field updates of a controller. *)
Definition with_status (st : TaskStatus) (c : SkyTaskFuture) : SkyTaskFuture :=
  mkSkyTaskFuture (_task_kwargs c) (_launch_coro c) (_status_check_coro c)
    (_status_upload_coro c) (_sky_path_setting c) (_task_name c) (_cluster_name c)
    (_cancel_callback c) (_event_handler c) (_launched_process c) st.

Definition with_handler (eh : EventHandler) (c : SkyTaskFuture) : SkyTaskFuture :=
  mkSkyTaskFuture (_task_kwargs c) (_launch_coro c) (_status_check_coro c)
    (_status_upload_coro c) (_sky_path_setting c) (_task_name c) (_cluster_name c)
    (_cancel_callback c) (Some eh) (_launched_process c) (_task_status c).

(** ** Remote Path Registry *)

Definition marker_of (sp : SkyPathSetting) (id : string) : marker :=
  (task_level_prefix sp, tracker_unique_id sp, id).

(** Modelled from the spec: [touch_task], [task_exists] and [delete_task]
    of the Remote Path Registry ([utils.py], not part of the sources):
    [touch_task] creates the marker if it is absent, [delete_task] removes
    it, both change nothing when called redundantly. *)
Definition touch_task (sp : SkyPathSetting) (id : string) (w : world) : world :=
  emit (touch_task_call (marker_of sp id))
       (set_object_store ({[marker_of sp id]} ∪ object_store w) w).

Definition task_exists (sp : SkyPathSetting) (id : string) (w : world) : bool :=
  bool_decide (marker_of sp id ∈ object_store w).

Definition delete_task (sp : SkyPathSetting) (id : string) (w : world) : world :=
  emit (delete_task_call (marker_of sp id))
       (set_object_store (object_store w ∖ {[marker_of sp id]}) w).

(** ** The controller and the registry *)

(** How an [asyncio.Task] handed to a done-callback has ended. *)
Inductive task_result :=
| task_returned
| task_raised (error : string)
| task_cancelled.

Section Agent.
Context (E : SkyEnv).

(** [SkyTaskFuture.__init__]. *)
Definition SkyTaskFuture_init (task_template : TaskTemplate) : SkyTaskFuture :=
  let cluster_name :=
    if decide (custom_job_launch_type task_template = MANAGED)
    then JOB_CONTROLLER_NAME E
    else custom_cluster_name task_template in
  let sky_path_setting :=
    from_task_prefix E
      (raw_output_data_prefix E (container_args task_template))
      (custom_job_launch_type task_template)
      cluster_name
      (custom_task_name task_template) in
  mkSkyTaskFuture task_template None None None sky_path_setting
    (path_task_name sky_path_setting) cluster_name None None false INIT.

(** The attributes that [SkyTaskFuture.start] assigns to [self]. *)
Definition started_by (callback : option Callback) (self : SkyTaskFuture) : SkyTaskFuture :=
  mkSkyTaskFuture (_task_kwargs self)
    (Some (mkDoneCallback "launch" false))
    (Some (mkDoneCallback "deletion status" true))
    (Some (mkDoneCallback "upload status" true))
    (_sky_path_setting self) (_task_name self) (_cluster_name self)
    callback (Some EventHandler_new) true (_task_status self).

(** [SkyTaskFuture.start], run on the object at [a]: the launch worker is
    started and its poller created, then the deletion-status and the
    status-upload tasks, each with its done-callback. *)
Definition start (a : addr) (callback : option Callback) (w : world) : world :=
  match heap w !! a with
  | None => w
  | Some self =>
      let w1 := emit (process_start a) w in
      let w2 := emit (create_task launch_coro (Some a)) w1 in
      let w3 := emit (create_task status_check_coro (Some a)) w2 in
      let w4 := emit (create_task status_upload_coro (Some a)) w3 in
      store_object a (started_by callback self) w4
  end.

(** [self._event_handler.<signal>.set()] on the object at [a]. *)
Definition signal (f : EventHandler -> EventHandler) (a : addr) (w : world)
    : world * option exn :=
  match heap w !! a with
  | Some self =>
      match _event_handler self with
      | Some eh => (store_object a (with_handler (f eh) self) w, None)
      | None => (w, Some AttributeError)
      end
  | None => (w, Some AttributeError)
  end.

(** [SkyTaskFuture.cancel]. *)
Definition cancel (a : addr) (w : world) : world * option exn :=
  signal set_cancel a w.

(** [cls._JOB_RESIGTRY.values()]. *)
Definition registry_values (w : world) : list SkyTaskFuture :=
  omap (fun a => heap w !! a) (map_to_list (_JOB_RESIGTRY w)).*2.

(** [SkyTaskTracker.on_task_deleted]. *)
Definition on_task_deleted (deleted_task : SkyTaskFuture) (w : world)
    : world * option exn :=
  let running_tasks_on_cluster :=
    filter (fun task => _task_status task = INIT
                        ∧ _cluster_name task = _cluster_name deleted_task)
           (registry_values w) in
  let '(w1, raised) :=
    match running_tasks_on_cluster with
    | [] =>
        let w' := emit (logger_warning ("Stopping cluster " +:+ _cluster_name deleted_task)) w in
        let r := sky_stop E (trace w') (_cluster_name deleted_task) in
        let w'' := emit (sky_stop_call (_cluster_name deleted_task)) w' in
        match r with
        | None => (w'', None)
        | Some NotSupportedError =>
            (emit (logger_warning ("Cluster " +:+ _cluster_name deleted_task
                                   +:+ " is not supported for stopping.")) w'',
             None)
        | Some e => (w'', Some e)
        end
    | _ :: _ => (w, None)
    end in
  match raised with
  | Some e => (w1, Some e)
  | None =>
      match SkyTaskTracker_sky_path_setting w1 with
      | None => (w1, Some AttributeError)
      | Some sp =>
          (delete_task sp (unique_id E (_sky_path_setting deleted_task)) w1, None)
      end
  end.

Definition str_error_cause (error_cause : option string) : string :=
  match error_cause with
  | Some s => s
  | None => "None"
  end.

(** [SkyTaskFuture.launch_failed_callback], run on the object at [a] for
    a task that ended as [task].  First the [try] block with its
    [except CancelledError] clause: the world it leaves, [error_cause], and
    the exception still on its way out, if any. *)
Definition launch_failed_callback_try (a : addr) (task : task_result)
    (cause : string) (cancel_on_done : bool) (w : world)
    : world * option string * option exn :=
  match task with
  | task_raised error =>
      let w' := emit (put_error_log a error) w in
      let w'' := emit (logger_error ("Task failed to " +:+ cause)) w' in
      let '(w3, r) := signal set_failed a w'' in
      (w3, Some "Exception", r)
  | task_returned =>
      if cancel_on_done then
        let '(w', r) := signal set_finished a w in (w', None, r)
      else (w, None, None)
  | task_cancelled =>
      let '(w', r) := signal set_cancel a w in
      (w', match r with None => Some "Cancelled" | Some _ => None end, r)
  end.

(** Then the [finally] block, with the check-and-set on the status. *)
Definition launch_failed_callback_finally (a : addr) (cause : string)
    (error_cause : option string) (pending : option exn) (w1 : world)
    : world * option exn :=
  let w2 := emit (logger_warning (cause +:+ " coroutine finished with "
                                  +:+ str_error_cause error_cause +:+ ".")) w1 in
  match heap w2 !! a with
  | None => (w2, Some AttributeError)
  | Some self =>
      if decide (_task_status self = INIT) then
        match _event_handler self with
        | None => (w2, Some AttributeError)
        | Some eh =>
            if is_terminal eh then
              let self' := with_status DONE self in
              let w3 := store_object a self' w2 in
              match _cancel_callback self with
              | Some SkyTaskTracker_on_task_deleted =>
                  let '(w4, r) := on_task_deleted self' (emit (cancel_callback_call a) w3) in
                  (w4, match r with Some e => Some e | None => pending end)
              | None => (w3, pending)
              end
            else (w2, pending)
        end
      else (w2, pending)
  end.

Definition launch_failed_callback (a : addr) (task : task_result)
    (cause : string) (cancel_on_done : bool) (w : world) : world * option exn :=
  let '(w1, error_cause, pending) :=
    launch_failed_callback_try a task cause cancel_on_done w in
  launch_failed_callback_finally a cause error_cause pending w1.

(** [SkyTaskTracker.try_first_register]. *)
Definition try_first_register (task_template : TaskTemplate) (w : world) : world :=
  if decide (_JOB_RESIGTRY w = ∅) then
    let w1 := emit setup_cloud_credential w in
    let sp := mkSkyPathSetting (raw_output_data_prefix E (container_args task_template))
                               (get_user_hash E) in
    emit (create_task zip_coro None) (set_tracker_setting sp w1)
  else w.

(** [SkyTaskTracker.register_sky_task]; the controller is returned by
    address. *)
Definition register_sky_task (task_template : TaskTemplate) (w : world)
    : outcome addr * world :=
  let w1 := try_first_register task_template w in
  let '(new_task, w2) := alloc (SkyTaskFuture_init task_template) w1 in
  let self := SkyTaskFuture_init task_template in
  match SkyTaskTracker_sky_path_setting w2 with
  | None => (Raised AttributeError, w2)
  | Some sp =>
      let started := task_exists sp (unique_id E (_sky_path_setting self)) w2 in
      if started then
        (Returned new_task,
         emit (logger_warning (_task_name self +:+ " task has already been created.")) w2)
      else
        let w3 := touch_task sp (unique_id E (_sky_path_setting self)) w2 in
        let w4 := start new_task (Some SkyTaskTracker_on_task_deleted) w3 in
        (Returned new_task,
         set_registry (<[_task_name self := new_task]> (_JOB_RESIGTRY w4)) w4)
  end.

(** The last statement of [remote_deletion]. *)
Definition remote_deletion_upload (resource_meta : SkyPilotMetadata) (w : world)
    : world * option exn :=
  (emit (to_proto_and_upload (job_name resource_meta)) w,
   upload_delete_proto E (trace w) resource_meta).

(** [remote_deletion]; [utc_time] and [last_upload_time] are what
    [check_remote_agent_alive] reads.  An error of the pool call leaves
    the function before [to_proto_and_upload]. *)
Definition remote_deletion (resource_meta : SkyPilotMetadata)
    (utc_time : Z) (last_upload_time : option Z) (w : world) : world * option exn :=
  if negb (check_remote_agent_alive utc_time last_upload_time) then
    let w1 := emit (pool_sky_down_call (meta_cluster_name resource_meta)) w in
    match pool_sky_down E (trace w) resource_meta with
    | Some e => (w1, Some e)
    | None => remote_deletion_upload resource_meta w1
    end
  else remote_deletion_upload resource_meta w.

(** [SkyPilotAgent.create]; its two log lines are left out. *)
Definition create (task_template : TaskTemplate) (w : world)
    : outcome SkyPilotMetadata * world :=
  let '(r, w1) := register_sky_task task_template w in
  match r with
  | Raised e => (Raised e, w1)
  | Returned task =>
      match heap w1 !! task with
      | None => (Raised AttributeError, w1)
      | Some c =>
          (Returned (mkSkyPilotMetadata (_task_name c) (_cluster_name c)
                       (file_access_raw_output_prefix (_sky_path_setting c))
                       (get_user_hash E)
                       (custom_job_launch_type task_template)),
           w1)
      end
  end.

(** Which branch [SkyPilotAgent.delete] takes. *)
Inductive delete_path :=
| remote_deletion_path
| cancel_path (existed_task : addr).

Definition delete_branch (resource_meta : SkyPilotMetadata) (w : world) : delete_path :=
  match _JOB_RESIGTRY w !! job_name resource_meta with
  | None => remote_deletion_path
  | Some existed_task => cancel_path existed_task
  end.

(** [SkyPilotAgent.delete]. *)
Definition delete (resource_meta : SkyPilotMetadata)
    (utc_time : Z) (last_upload_time : option Z) (w : world) : world * option exn :=
  match delete_branch resource_meta w with
  | remote_deletion_path => remote_deletion resource_meta utc_time last_upload_time w
  | cancel_path existed_task => cancel existed_task w
  end.

(** [query_job_status]. *)
Definition query_job_status (resource_meta : SkyPilotMetadata) : outcome string :=
  let sky_path_setting :=
    mkTaskRemotePathSetting (task_metadata_prefix resource_meta)
      (job_launch_type resource_meta) (meta_cluster_name resource_meta)
      (job_name resource_meta) in
  bind_outcome (get_task_status E sky_path_setting) (fun task_status =>
  LAUNCH_TYPE_TO_SKY_STATUS E (job_launch_type resource_meta) task_status).

(** [SkyPilotAgent.get]; its log line and the clock reads that feed it are
    left out. *)
Definition get (resource_meta : SkyPilotMetadata) : outcome Resource :=
  bind_outcome (query_job_status resource_meta) (fun job_status =>
  bind_outcome (skypilot_status_to_flyte_phase E job_status) (fun phase =>
  Returned (mkResource phase None None))).

(** ** Runs of the agent process *)

Definition coro_callback (k : coro_kind) (c : SkyTaskFuture) : option done_callback :=
  match k with
  | launch_coro => _launch_coro c
  | status_check_coro => _status_check_coro c
  | status_upload_coro => _status_upload_coro c
  | zip_coro => None
  end.

Inductive signal_name := sig_launch_done | sig_failed | sig_cancel | sig_finished.

Definition set_signal (s : signal_name) : EventHandler -> EventHandler :=
  match s with
  | sig_launch_done => set_launch_done
  | sig_failed => set_failed
  | sig_cancel => set_cancel
  | sig_finished => set_finished
  end.

(** What can happen between two scheduling points of the event loop:
    an agent request, the done-callback of a finished coroutine, a
    coroutine setting a signal, another process changing the object
    store. *)
Inductive event :=
| ev_create (task_template : TaskTemplate)
| ev_delete (resource_meta : SkyPilotMetadata) (utc_time : Z) (last_upload_time : option Z)
| ev_done (a : addr) (k : coro_kind) (task : task_result)
| ev_signal (a : addr) (s : signal_name)
| ev_remote_touch (m : marker)
| ev_remote_delete (m : marker).

Definition step (ev : event) (w : world) : world :=
  match ev with
  | ev_create task_template => snd (create task_template w)
  | ev_delete resource_meta utc_time last_upload_time =>
      fst (delete resource_meta utc_time last_upload_time w)
  | ev_done a k task =>
      match heap w !! a with
      | Some c =>
          match coro_callback k c with
          | Some cb => fst (launch_failed_callback a task (cause cb) (cancel_on_done cb) w)
          | None => w
          end
      | None => w
      end
  | ev_signal a s => fst (signal (set_signal s) a w)
  | ev_remote_touch m => set_object_store ({[m]} ∪ object_store w) w
  | ev_remote_delete m => set_object_store (object_store w ∖ {[m]}) w
  end.

Definition run (evs : list event) (w : world) : world :=
  foldl (fun w ev => step ev w) w evs.

End Agent.

(** ** A concrete environment

    Used to run the model on examples: paths are kept as they are given,
    the task's id is its cluster and name, and the status tables know the
    provisioner's usual names. *)

Definition example_from_task_prefix (prefix : string) (jt : JobLaunchType)
    (cluster task_prefix : string) : TaskRemotePathSetting :=
  mkTaskRemotePathSetting prefix jt cluster task_prefix.

Definition example_unique_id (sps : TaskRemotePathSetting) : string :=
  path_cluster_name sps +:+ "." +:+ path_task_name sps.

Definition example_sky_status (jt : JobLaunchType) (task_status : string) : outcome string :=
  if bool_decide (task_status ∈ ["INIT"; "PENDING"; "RUNNING"; "SUCCEEDED"; "FAILED"; "CANCELLED"])
  then Returned task_status
  else Raised (ValueError task_status).

Definition example_flyte_phase (job_status : string) : outcome TaskExecution.Phase :=
  if bool_decide (job_status = "RUNNING") then Returned TaskExecution.RUNNING
  else if bool_decide (job_status = "SUCCEEDED") then Returned TaskExecution.SUCCEEDED
  else if bool_decide (job_status = "FAILED") then Returned TaskExecution.FAILED
  else if bool_decide (job_status = "CANCELLED") then Returned TaskExecution.ABORTED
  else Returned TaskExecution.PENDING.

Definition env_with (stop : list effect -> string -> option exn)
    (down : list effect -> SkyPilotMetadata -> option exn)
    (stored_status : outcome string) : SkyEnv :=
  mkSkyEnv "sky-jobs-controller" "host-0" (fun args => default "" (last args))
    example_from_task_prefix example_unique_id stop down (fun _ _ => None)
    (fun _ => stored_status) example_sky_status example_flyte_phase.

Definition example_env (stop : list effect -> string -> option exn)
    (stored_status : outcome string) : SkyEnv :=
  env_with stop (fun _ _ => None) stored_status.

Definition stop_succeeds : list effect -> string -> option exn := fun _ _ => None.
Definition stop_not_supported : list effect -> string -> option exn :=
  fun _ _ => Some NotSupportedError.

Definition J1 : TaskTemplate :=
  mkTaskTemplate INTERACTIVE "C2" "J1" ["pyflyte-execute"; "s3://bucket/out"].
Definition J2 : TaskTemplate :=
  mkTaskTemplate INTERACTIVE "C2" "J2" ["pyflyte-execute"; "s3://bucket/out"].

(** ** Notions used to state the properties *)

(** Some controller indexed by the registry has status [INIT] and sits on
    [cluster]; [others_running] leaves the object at [a] out. *)
Definition running_on_cluster (w : world) (cluster : string) : Prop :=
  ∃ n b c, _JOB_RESIGTRY w !! n = Some b ∧ heap w !! b = Some c
           ∧ _task_status c = INIT ∧ _cluster_name c = cluster.

Definition others_running (w : world) (a : addr) (cluster : string) : Prop :=
  ∃ n b c, b ≠ a ∧ _JOB_RESIGTRY w !! n = Some b ∧ heap w !! b = Some c
           ∧ _task_status c = INIT ∧ _cluster_name c = cluster.

(** How often the teardown callback of the controller at [a] was invoked,
    how many launch workers were started, how often a marker was touched. *)
Definition teardowns (a : addr) (l : list effect) : nat :=
  length (filter (fun e => e = cancel_callback_call a) l).

Definition is_teardown (e : effect) : bool :=
  match e with
  | cancel_callback_call _ => true
  | _ => false
  end.

Definition is_process_start (e : effect) : bool :=
  match e with
  | process_start _ => true
  | _ => false
  end.

Definition launches (l : list effect) : nat :=
  length (filter (fun e => is_process_start e = true) l).

Definition touches (m : marker) (l : list effect) : nat :=
  length (filter (fun e => e = touch_task_call m) l).

Definition status_at (a : addr) (w : world) : option TaskStatus :=
  _task_status <$> heap w !! a.

Definition handler_of (a : addr) (w : world) : option EventHandler :=
  heap w !! a ≫= _event_handler.

(** A controller on which [start] has run, as [register_sky_task] runs it. *)
Definition started (c : SkyTaskFuture) : Prop :=
  _cancel_callback c = Some SkyTaskTracker_on_task_deleted
  ∧ _launch_coro c = Some (mkDoneCallback "launch" false)
  ∧ _status_check_coro c = Some (mkDoneCallback "deletion status" true)
  ∧ _status_upload_coro c = Some (mkDoneCallback "upload status" true).

Definition ctrl_wf (c : SkyTaskFuture) : Prop :=
  (is_Some (_event_handler c) → started c)
  ∧ (_task_status c = INIT ∨ _task_status c = DONE).

(** The states the agent process can be in. *)
Record wf (w : world) : Prop := mkWf {
  wf_registry : ∀ n a, _JOB_RESIGTRY w !! n = Some a → a < length (heap w);
  wf_setting : _JOB_RESIGTRY w ≠ ∅ → is_Some (SkyTaskTracker_sky_path_setting w);
  wf_ctrl : ∀ a c, heap w !! a = Some c → ctrl_wf c;
  wf_teardowns : ∀ a,
    teardowns a (trace w) = if decide (status_at a w = Some DONE) then 1 else 0
}.

(** Whether the done-callback of coroutine [k], for a task that ended as
    [task], finds a terminal signal on a handler that was [eh] before. *)
Definition sees_terminal (eh : EventHandler) (k : coro_kind) (task : task_result) : bool :=
  is_terminal eh
  || match task with
     | task_returned => match k with launch_coro => false | _ => true end
     | _ => true
     end.

(** The state in which a done-callback calls the teardown callback of the
    controller at [a]: its status has just been set to [DONE]. *)
Definition entering_teardown (a : addr) (w : world) : world :=
  match heap w !! a with
  | Some self => emit (cancel_callback_call a) (store_object a (with_status DONE self) w)
  | None => w
  end.

Definition is_sky_stop (e : effect) : bool :=
  match e with
  | sky_stop_call _ => true
  | _ => false
  end.

(** The [sky.stop] calls of a trace. *)
Definition stops (l : list effect) : list effect :=
  filter (fun e => is_sky_stop e = true) l.

Definition meta_J1 : SkyPilotMetadata :=
  mkSkyPilotMetadata "J1" "C2" "s3://bucket/out" "host-0" INTERACTIVE.
Definition meta_J2 : SkyPilotMetadata :=
  mkSkyPilotMetadata "J2" "C2" "s3://bucket/out" "host-0" INTERACTIVE.

(** The spec's scenario: two jobs on cluster C2; J1 is deleted and its
    deletion-status poller ends, then the same for J2. *)
Definition delete_J1 : list event :=
  [ev_create J1; ev_create J2;
   ev_delete meta_J1 1700000000000000%Z (Some 1700000000000000%Z);
   ev_done 0 status_check_coro task_returned].
Definition delete_J1_then_J2 : list event :=
  delete_J1 ++ [ev_delete meta_J2 1700000000000000%Z (Some 1700000000000000%Z);
                ev_done 1 status_check_coro task_returned].

(** ** Notions used for the further properties *)

Definition is_zip_task (e : effect) : bool :=
  match e with
  | create_task zip_coro None => true
  | _ => false
  end.

(** How many zip-and-upload tasks were created. *)
Definition zips (l : list effect) : nat :=
  length (filter (fun e => is_zip_task e = true) l).

(** Every signal set in [eh] is set in [eh']. *)
Definition handler_le (eh eh' : EventHandler) : Prop :=
  (launch_done_event eh = true → launch_done_event eh' = true)
  ∧ (failed_event eh = true → failed_event eh' = true)
  ∧ (cancel_event eh = true → cancel_event eh' = true)
  ∧ (finished_event eh = true → finished_event eh' = true).

(** [c'] is a later state of the controller [c]: what the constructor
    set is unchanged, and an event handler, once there, stays and only
    gains signals. *)
Definition ctrl_evolves (c c' : SkyTaskFuture) : Prop :=
  _task_kwargs c' = _task_kwargs c
  ∧ _sky_path_setting c' = _sky_path_setting c
  ∧ _task_name c' = _task_name c
  ∧ _cluster_name c' = _cluster_name c
  ∧ ∀ eh, _event_handler c = Some eh →
          ∃ eh', _event_handler c' = Some eh' ∧ handler_le eh eh'.

(** The registry only indexes controllers on which [start] has run. *)
Definition registry_started (w : world) : Prop :=
  ∀ n a, _JOB_RESIGTRY w !! n = Some a →
         ∃ c eh, heap w !! a = Some c ∧ _event_handler c = Some eh.

(** Every object of [w] is still there in [w'], in a later state. *)
Definition heap_evolves (w w' : world) : Prop :=
  ∀ a c, heap w !! a = Some c → ∃ c', heap w' !! a = Some c' ∧ ctrl_evolves c c'.

(** The class attributes of [SkyTaskTracker] are the same in both. *)
Definition same_tracker (w w' : world) : Prop :=
  _JOB_RESIGTRY w' = _JOB_RESIGTRY w
  ∧ SkyTaskTracker_sky_path_setting w' = SkyTaskTracker_sky_path_setting w.

(** How many effects of a trace satisfy [p]. *)
Definition count_effects (p : effect → bool) (l : list effect) : nat :=
  length (filter (fun e => p e = true) l).

Definition is_touch (e : effect) : bool :=
  match e with
  | touch_task_call _ => true
  | _ => false
  end.

(** The calls that only [register_sky_task] and what it calls make. *)
Definition registration_effect (e : effect) : bool :=
  match e with
  | setup_cloud_credential | process_start _ | create_task _ _ | touch_task_call _ => true
  | _ => false
  end.

(** * Properties *)

(** ** Liveness *)

Lemma total_seconds_gt_spec (time_diff s : Z) :
  total_seconds_gt time_diff s = true ↔ (s * 1000000 < time_diff)%Z.
Proof. unfold total_seconds_gt. apply Z.ltb_lt. Qed.

(** C2, as stated, fails: with no heartbeat ever written
    ([last_upload_time()] is [None]) the check answers alive, not dead. *)
Lemma C2_no_heartbeat_counts_as_alive :
  check_remote_agent_alive 1700000000000000 None ≠ false.
Proof. discriminate. Qed.

(** C2, amended: the liveness check answers false exactly when a heartbeat
    was written and it is more than 600 seconds old; with no heartbeat at
    all, and with a heartbeat at most 600 seconds old, it answers true. *)
Theorem C2_check_remote_agent_alive (utc_time : Z) (last_upload_time : option Z) :
  check_remote_agent_alive utc_time last_upload_time = false
  ↔ ∃ t, last_upload_time = Some t ∧ (600 * 1000000 < utc_time - t)%Z.
Proof.
  unfold check_remote_agent_alive.
  destruct last_upload_time as [t|].
  - destruct (total_seconds_gt (utc_time - t) (CONTROLLER_IDLE_MINUTES_TO_AUTOSTOP * 60))
      eqn:Hgt.
    + apply total_seconds_gt_spec in Hgt. split; [|done].
      intros _. exists t. split; [done|]. unfold CONTROLLER_IDLE_MINUTES_TO_AUTOSTOP in Hgt. lia.
    + split; [done|]. intros (t' & [= <-] & Hlt).
      assert (total_seconds_gt (utc_time - t) (CONTROLLER_IDLE_MINUTES_TO_AUTOSTOP * 60) = true)
        as Hyes by (apply total_seconds_gt_spec; unfold CONTROLLER_IDLE_MINUTES_TO_AUTOSTOP; lia).
      congruence.
  - split; [done|]. intros (t & [=] & _).
Qed.

(** The spec's concrete instants: a heartbeat 700 s before now is stale, one
    100 s before now is not. *)
Example check_remote_agent_alive_700s (T : Z) :
  check_remote_agent_alive T (Some (T - 700 * 1000000)%Z) = false.
Proof.
  unfold check_remote_agent_alive.
  replace (T - (T - 700 * 1000000))%Z with 700000000%Z by lia. reflexivity.
Qed.

Example check_remote_agent_alive_100s (T : Z) :
  check_remote_agent_alive T (Some (T - 100 * 1000000)%Z) = true.
Proof.
  unfold check_remote_agent_alive.
  replace (T - (T - 100 * 1000000))%Z with 100000000%Z by lia. reflexivity.
Qed.

(** ** The launch worker and its supervising coroutine *)

Lemma exception_read_twice (p : WrappedProcess) (m : pipe_msg) :
  _pconn p = [Returned m] →
  exception p = (Returned m, mkWrappedProcess [] m)
  ∧ exception (mkWrappedProcess [] m) = (Returned m, mkWrappedProcess [] m).
Proof. intros H. unfold exception. rewrite H. done. Qed.

Lemma status_poller_exit_raises (e tb : string) (eh : EventHandler) (now : nat) :
  status_poller_exit (mkWrappedProcess (WrappedProcess_run (target_raises e tb pickles)) None)
    eh now
  = mkPollState (Raised (LaunchException e tb)) eh clean_up
                (mkWrappedProcess [] (Some (e, tb))) now.
Proof. reflexivity. Qed.

Lemma status_poller_exit_returns (eh : EventHandler) (now : nat) :
  status_poller_exit (mkWrappedProcess (WrappedProcess_run target_returns) None) eh now
  = mkPollState (Returned tt) (set_launch_done eh) clean_up (mkWrappedProcess [] None) now.
Proof. reflexivity. Qed.

(** While the worker runs, the task is not cancelled and no wake-up sees a
    terminal signal, the poller just advances. *)
Lemma status_poller_advance (n fuel now : nat) (wk : worker) (handler_at : nat → EventHandler)
    (cancelled_at : nat → bool) :
  (∀ j, now ≤ j < now + n → exitcode wk j = None) →
  (∀ j, now < j ≤ now + n → is_terminal (handler_at j) = false) →
  (∀ j, now < j ≤ now + n → cancelled_at j = false) →
  status_poller (n + fuel) now wk handler_at cancelled_at
  = status_poller fuel (now + n) wk handler_at cancelled_at.
Proof.
  revert now. induction n as [|n IH]; intros now Hrun Hquiet Hkeep.
  - by rewrite Nat.add_0_r.
  - simpl. rewrite Hrun by lia. rewrite Hkeep by lia. rewrite Hquiet by lia.
    rewrite IH.
    + f_equal. lia.
    + intros j Hj. apply Hrun. lia.
    + intros j Hj. apply Hquiet. lia.
    + intros j Hj. apply Hkeep. lia.
Qed.

Lemma exitcode_finishes (t : nat) (r : target_result) (j : nat) :
  exitcode (finishes t r) j = None ↔ j < t.
Proof.
  simpl. destruct (Nat.leb_spec t j); split; try done; lia.
Qed.

(** A poller that is left alone until the worker has exited runs the code
    after its loop on what the worker wrote. *)
Lemma status_poller_reaches_exit (t fuel : nat) (r : target_result)
    (handler_at : nat → EventHandler) (cancelled_at : nat → bool) :
  (∀ j : nat, (1 ≤ j ≤ t)%nat → is_terminal (handler_at j) = false) →
  (∀ j : nat, (1 ≤ j ≤ t)%nat → cancelled_at j = false) →
  t ≤ fuel →
  status_poller fuel 0 (finishes t r) handler_at cancelled_at
  = Some (status_poller_exit (mkWrappedProcess (WrappedProcess_run r) None) (handler_at t) t).
Proof.
  intros Hquiet Hkeep Hfuel.
  replace fuel with (t + (fuel - t)) by lia.
  rewrite status_poller_advance; cycle 1.
  { intros j Hj. apply exitcode_finishes. lia. }
  { intros j Hj. apply Hquiet. lia. }
  { intros j Hj. apply Hkeep. lia. }
  simpl (0 + t).
  assert (∃ z, exitcode (finishes t r) t = Some z) as [z Hz].
  { simpl. rewrite Nat.leb_refl. eauto. }
  assert (process_at (finishes t r) t = mkWrappedProcess (WrappedProcess_run r) None) as Hp.
  { simpl. by rewrite Nat.leb_refl. }
  destruct (fuel - t); unfold status_poller; fold status_poller; rewrite Hz, Hp; reflexivity.
Qed.

(** C6, as stated, fails: the worker raises during the poller's first
    sleep and a cancel arrives during the same sleep; the poller wakes up,
    sees the terminal signal, cleans up and returns normally.  The pair
    [(e, tb)] stays unread on the pipe and nothing is raised. *)
Lemma C6_exception_dropped_after_terminal_signal :
  status_poller 3 0 (finishes 1 (target_raises "RuntimeError" "Traceback" pickles))
    (fun k => match k with O => EventHandler_new | S _ => set_cancel EventHandler_new end)
    (fun _ => false)
  = Some (mkPollState (Returned tt) (set_cancel EventHandler_new) clean_up
            (mkWrappedProcess [Returned (Some ("RuntimeError", "Traceback"))] None) 1).
Proof. reflexivity. Qed.

(** C6, amended: take a worker that exits during the [t]-th sleep of the
    supervising coroutine, a coroutine that is not cancelled in any of
    these sleeps, and wake-ups that see no terminal signal.  Then the
    coroutine ends at its [t]-th wake-up.  If the target raised an
    exception that [except Exception] catches and that goes through
    pickling and unpickling, the coroutine cleans up, does not set
    [launch_done] and raises the exception with its formatted traceback
    to its caller.  If the target returned, the coroutine sets
    [launch_done], cleans up and returns. *)
Theorem C6_worker_exception_reaches_caller (t fuel : nat) (r : target_result)
    (handler_at : nat → EventHandler) (cancelled_at : nat → bool) :
  (∀ j : nat, (1 ≤ j ≤ t)%nat → is_terminal (handler_at j) = false) →
  (∀ j : nat, (1 ≤ j ≤ t)%nat → cancelled_at j = false) →
  t ≤ fuel →
  ∃ st, status_poller fuel 0 (finishes t r) handler_at cancelled_at = Some st
        ∧ poll_ticks st = t
        ∧ (∀ e tb, r = target_raises e tb pickles →
             poll_result st = Raised (LaunchException e tb)
             ∧ poll_calls st = [terminate; join; close]
             ∧ poll_handler st = handler_at t)
        ∧ (r = target_returns →
             poll_result st = Returned tt
             ∧ poll_calls st = [terminate; join; close]
             ∧ poll_handler st = set_launch_done (handler_at t)).
Proof.
  intros Hquiet Hkeep Hfuel.
  eexists. split; [by apply status_poller_reaches_exit|].
  split; [|split].
  - destruct r as [|e tb [| |err]|]; reflexivity.
  - by intros e tb ->.
  - by intros ->.
Qed.

Lemma C6_worker_exception_reaches_caller_witness :
  ∃ st, status_poller 5 0 (finishes 2 (target_raises "RuntimeError" "Traceback" pickles))
          (fun _ => EventHandler_new) (fun _ => false) = Some st
        ∧ poll_result st = Raised (LaunchException "RuntimeError" "Traceback")
        ∧ poll_calls st = [terminate; join; close].
Proof.
  destruct (C6_worker_exception_reaches_caller 2 5
              (target_raises "RuntimeError" "Traceback" pickles)
              (fun _ => EventHandler_new) (fun _ => false))
    as (st & Hst & _ & Hraise & _).
  - reflexivity.
  - reflexivity.
  - lia.
  - exists st. split; [exact Hst|].
    destruct (Hraise "RuntimeError" "Traceback" eq_refl) as (Hres & Hcalls & _).
    split; [exact Hres | exact Hcalls].
Defined.

(** C9: when a wake-up of the supervising coroutine sees a terminal signal,
    the loop tests before it have all found the worker running and the
    coroutine has not been cancelled in its sleeps, the coroutine returns,
    and does so only after [terminate], [join] and [close] on the worker
    process. *)
Theorem C9_terminal_signal_cleans_worker (wk : worker) (handler_at : nat → EventHandler)
    (cancelled_at : nat → bool) (k fuel : nat) :
  (∀ j : nat, (j ≤ k)%nat → exitcode wk j = None) →
  (∀ j : nat, (1 ≤ j ≤ k)%nat → is_terminal (handler_at j) = false) →
  (∀ j : nat, (1 ≤ j ≤ S k)%nat → cancelled_at j = false) →
  is_terminal (handler_at (S k)) = true →
  k < fuel →
  ∃ st, status_poller fuel 0 wk handler_at cancelled_at = Some st
        ∧ poll_result st = Returned tt
        ∧ poll_calls st = [terminate; join; close]
        ∧ poll_ticks st = S k.
Proof.
  intros Hrun Hquiet Hkeep Hterm Hfuel.
  replace fuel with (k + S (fuel - S k)) by lia.
  rewrite status_poller_advance; cycle 1.
  { intros j Hj. apply Hrun. lia. }
  { intros j Hj. apply Hquiet. lia. }
  { intros j Hj. apply Hkeep. lia. }
  simpl. rewrite Hrun by lia. rewrite Hkeep by lia. rewrite Hterm.
  eexists. split; [reflexivity|]. done.
Qed.

Lemma C9_terminal_signal_cleans_worker_witness :
  ∃ st, status_poller 4 0 runs_forever
          (fun k => if decide (k < 3) then EventHandler_new else set_failed EventHandler_new)
          (fun _ => false)
        = Some st
        ∧ poll_result st = Returned tt
        ∧ poll_calls st = [terminate; join; close]
        ∧ poll_ticks st = 3.
Proof.
  apply (C9_terminal_signal_cleans_worker runs_forever
           (fun k => if decide (k < 3) then EventHandler_new else set_failed EventHandler_new)
           (fun _ => false) 2 4).
  - reflexivity.
  - intros j Hj. destruct (decide (j < 3)); [reflexivity | lia].
  - reflexivity.
  - reflexivity.
  - lia.
Defined.

(** ** Get *)

(** C8, as stated, fails: with an unknown status stored for the job, the
    status table raises and [get] lets the error through to its caller. *)
Lemma C8_get_raises_on_unknown_status :
  get (example_env stop_succeeds (Returned "NOT_A_STATUS")) meta_J1
  = Raised (ValueError "NOT_A_STATUS").
Proof. reflexivity. Qed.

(** C8, amended: [get] has no handler of its own.  An error raised while
    reading or mapping the job status is raised to the caller of [get];
    when [get] returns, the phase is the mapped status, and [outputs] and
    [message] are both [None]. *)
Theorem C8_get_propagates_errors (E : SkyEnv) (resource_meta : SkyPilotMetadata) :
  (∀ e, query_job_status E resource_meta = Raised e → get E resource_meta = Raised e)
  ∧ (∀ job_status e,
       query_job_status E resource_meta = Returned job_status →
       skypilot_status_to_flyte_phase E job_status = Raised e →
       get E resource_meta = Raised e)
  ∧ (∀ r, get E resource_meta = Returned r →
       message r = None ∧ outputs r = None
       ∧ ∃ job_status, query_job_status E resource_meta = Returned job_status
                       ∧ skypilot_status_to_flyte_phase E job_status = Returned (phase r)).
Proof.
  unfold get. split; [|split].
  - intros e ->. reflexivity.
  - intros job_status e -> Hphase. simpl. by rewrite Hphase.
  - intros r. destruct (query_job_status E resource_meta) as [job_status|e]; [|done].
    simpl. destruct (skypilot_status_to_flyte_phase E job_status) as [p|e] eqn:Hp; [|done].
    simpl. intros [= <-]. simpl. eauto.
Qed.

Lemma C8_get_propagates_errors_witness :
  get (example_env stop_succeeds (Raised (OtherError "status file unreadable"))) meta_J1
  = Raised (OtherError "status file unreadable")
  ∧ message (mkResource TaskExecution.FAILED None None) = None.
Proof.
  split.
  - apply (C8_get_propagates_errors
             (example_env stop_succeeds (Raised (OtherError "status file unreadable"))) meta_J1).
    reflexivity.
  - apply (C8_get_propagates_errors (example_env stop_succeeds (Returned "FAILED")) meta_J1).
    reflexivity.
Defined.

(** ** start *)

Lemma lookup_alloc (c : SkyTaskFuture) (w : world) :
  heap (alloc c w).2 !! (alloc c w).1 = Some c.
Proof.
  simpl. rewrite lookup_app_r by lia. by rewrite Nat.sub_diag.
Qed.

Lemma start_spec (a : addr) (callback : option Callback) (w : world) (self : SkyTaskFuture) :
  heap w !! a = Some self →
  start a callback w
  = mkWorld (<[a := started_by callback self]> (heap w)) (_JOB_RESIGTRY w)
      (SkyTaskTracker_sky_path_setting w) (object_store w)
      (trace w ++ [process_start a; create_task launch_coro (Some a);
                   create_task status_check_coro (Some a);
                   create_task status_upload_coro (Some a)]).
Proof.
  intros Hself. unfold start. rewrite Hself. unfold store_object, emit. simpl.
  by rewrite <- !app_assoc.
Qed.

(** C5, as stated, fails: after [start] on a freshly constructed
    controller the status is still [INIT], not [LAUNCHING]. *)
Lemma C5_start_leaves_INIT :
  let E := example_env stop_succeeds (Returned "RUNNING") in
  let new := alloc (SkyTaskFuture_init E J1) initial_world in
  status_at new.1 (start new.1 (Some SkyTaskTracker_on_task_deleted) new.2) = Some INIT
  ∧ status_at new.1 (start new.1 (Some SkyTaskTracker_on_task_deleted) new.2) ≠ Some LAUNCHING.
Proof. split; [reflexivity | discriminate]. Qed.

(** C5, amended: [start] on a controller starts the launch worker process
    and creates three supervised tasks (launch poller, deletion-status
    poller, status upload), each with [launch_failed_callback] as its
    done-callback, installs a fresh [EventHandler] and the callback, and
    leaves the controller's [TaskStatus] as it was. *)
Theorem C5_start_spawns_three_tasks (a : addr) (callback : option Callback)
    (w : world) (self : SkyTaskFuture) :
  heap w !! a = Some self →
  trace (start a callback w)
  = trace w ++ [process_start a; create_task launch_coro (Some a);
                create_task status_check_coro (Some a);
                create_task status_upload_coro (Some a)]
  ∧ ∃ self', heap (start a callback w) !! a = Some self'
      ∧ _task_status self' = _task_status self
      ∧ _event_handler self' = Some EventHandler_new
      ∧ _cancel_callback self' = callback
      ∧ coro_callback launch_coro self' = Some (mkDoneCallback "launch" false)
      ∧ coro_callback status_check_coro self' = Some (mkDoneCallback "deletion status" true)
      ∧ coro_callback status_upload_coro self' = Some (mkDoneCallback "upload status" true).
Proof.
  intros Hself. rewrite (start_spec a callback w self Hself). simpl.
  split; [done|].
  eexists. split.
  - apply list_lookup_insert_eq. by eapply lookup_lt_Some.
  - done.
Qed.

Lemma C5_start_spawns_three_tasks_witness :
  let E := example_env stop_succeeds (Returned "RUNNING") in
  let new := alloc (SkyTaskFuture_init E J1) initial_world in
  launches (trace (start new.1 (Some SkyTaskTracker_on_task_deleted) new.2)) = 1
  ∧ ∃ self', heap (start new.1 (Some SkyTaskTracker_on_task_deleted) new.2) !! new.1 = Some self'
      ∧ _task_status self' = INIT.
Proof.
  intros E new.
  destruct (C5_start_spawns_three_tasks new.1 (Some SkyTaskTracker_on_task_deleted) new.2
              (SkyTaskFuture_init E J1) (lookup_alloc _ _))
    as (Htrace & self' & Hlook & Hstatus & _).
  split.
  - rewrite Htrace. reflexivity.
  - exists self'. split; [exact Hlook | exact Hstatus].
Defined.

(** ** Teardown *)

Lemma registry_values_elem (w : world) (c : SkyTaskFuture) :
  c ∈ registry_values w
  ↔ ∃ n b, _JOB_RESIGTRY w !! n = Some b ∧ heap w !! b = Some c.
Proof.
  unfold registry_values. rewrite list_elem_of_omap. split.
  - intros (b & Hb & Hc). apply list_elem_of_fmap in Hb as ([n b'] & -> & Hnb).
    apply elem_of_map_to_list in Hnb. eauto.
  - intros (n & b & Hn & Hc). exists b. split; [|done].
    apply list_elem_of_fmap. exists (n, b). split; [done|].
    by apply elem_of_map_to_list.
Qed.

Lemma running_filter_nil (w : world) (cluster : string) :
  filter (fun task => _task_status task = INIT ∧ _cluster_name task = cluster)
         (registry_values w) = []
  ↔ ¬ running_on_cluster w cluster.
Proof.
  split.
  - intros Hnil (n & b & c & Hn & Hc & Hst & Hcl).
    eapply (filter_nil_not_elem_of _ _ c Hnil); [done|].
    apply registry_values_elem. eauto.
  - intros Hnone.
    destruct (filter _ (registry_values w)) as [|c l] eqn:Hf; [done|].
    exfalso. apply Hnone.
    assert (c ∈ filter (fun task => _task_status task = INIT ∧ _cluster_name task = cluster)
                       (registry_values w)) as Hin by (rewrite Hf; left).
    apply list_elem_of_filter in Hin as [[Hst Hcl] Hin].
    apply registry_values_elem in Hin as (n & b & Hn & Hc).
    exists n, b, c. done.
Qed.

(** With a running controller left on the cluster, the provisioner is not
    called and the marker is deleted. *)
Lemma on_task_deleted_busy (E : SkyEnv) (deleted_task : SkyTaskFuture) (w : world)
    (sp : SkyPathSetting) :
  running_on_cluster w (_cluster_name deleted_task) →
  SkyTaskTracker_sky_path_setting w = Some sp →
  on_task_deleted E deleted_task w
  = (delete_task sp (unique_id E (_sky_path_setting deleted_task)) w, None).
Proof.
  intros Hrun Hsp. unfold on_task_deleted.
  destruct (filter _ (registry_values w)) as [|c l] eqn:Hf.
  - apply running_filter_nil in Hf. done.
  - by rewrite Hsp.
Qed.

(** With none left, [sky.stop] is called; what follows depends on how it
    ends. *)
Lemma on_task_deleted_idle (E : SkyEnv) (deleted_task : SkyTaskFuture) (w : world)
    (sp : SkyPathSetting) :
  ¬ running_on_cluster w (_cluster_name deleted_task) →
  SkyTaskTracker_sky_path_setting w = Some sp →
  let cluster := _cluster_name deleted_task in
  let id := unique_id E (_sky_path_setting deleted_task) in
  let w1 := emit (logger_warning ("Stopping cluster " +:+ cluster)) w in
  let w2 := emit (sky_stop_call cluster) w1 in
  on_task_deleted E deleted_task w
  = match sky_stop E (trace w1) cluster with
    | None => (delete_task sp id w2, None)
    | Some NotSupportedError =>
        (delete_task sp id
           (emit (logger_warning ("Cluster " +:+ cluster
                                  +:+ " is not supported for stopping.")) w2),
         None)
    | Some e => (w2, Some e)
    end.
Proof.
  intros Hrun Hsp. simpl. unfold on_task_deleted.
  apply running_filter_nil in Hrun. rewrite Hrun.
  destruct (sky_stop E _ _) as [[]|]; simpl; by rewrite ?Hsp.
Qed.

(** C7: when [sky.stop] raises [NotSupportedError] during teardown, the
    error is caught and logged as a warning, [on_task_deleted] returns
    normally, and [delete_task] still removes the job's marker. *)
Theorem C7_not_supported_is_caught (E : SkyEnv) (deleted_task : SkyTaskFuture)
    (w : world) (sp : SkyPathSetting) :
  let cluster := _cluster_name deleted_task in
  let m := marker_of sp (unique_id E (_sky_path_setting deleted_task)) in
  ¬ running_on_cluster w cluster →
  SkyTaskTracker_sky_path_setting w = Some sp →
  sky_stop E (trace w ++ [logger_warning ("Stopping cluster " +:+ cluster)]) cluster
  = Some NotSupportedError →
  ∃ w', on_task_deleted E deleted_task w = (w', None)
        ∧ trace w'
          = trace w ++ [logger_warning ("Stopping cluster " +:+ cluster);
                        sky_stop_call cluster;
                        logger_warning ("Cluster " +:+ cluster
                                        +:+ " is not supported for stopping.");
                        delete_task_call m]
        ∧ object_store w' = object_store w ∖ {[m]}
        ∧ (m ∉ object_store w')
        ∧ heap w' = heap w
        ∧ _JOB_RESIGTRY w' = _JOB_RESIGTRY w.
Proof.
  intros cluster m Hrun Hsp Hstop.
  rewrite (on_task_deleted_idle E deleted_task w sp Hrun Hsp).
  simpl. fold cluster. rewrite Hstop.
  eexists. split; [reflexivity|]. simpl.
  split; [by rewrite <- !app_assoc|].
  split; [done|]. split; [|done].
  rewrite not_elem_of_difference, elem_of_singleton. by right.
Qed.

Lemma C7_not_supported_is_caught_witness :
  let E := example_env stop_not_supported (Returned "RUNNING") in
  let w := entering_teardown 0 (run E [ev_create J1] initial_world) in
  ∃ w', on_task_deleted E (with_status DONE (SkyTaskFuture_init E J1)) w = (w', None)
        ∧ ("s3://bucket/out", "host-0", "C2.J1") ∉ object_store w'.
Proof.
  intros E w.
  destruct (C7_not_supported_is_caught E (with_status DONE (SkyTaskFuture_init E J1)) w
              (mkSkyPathSetting "s3://bucket/out" "host-0"))
    as (w' & Hres & _ & _ & Hgone & _).
  - apply running_filter_nil. vm_compute. reflexivity.
  - reflexivity.
  - reflexivity.
  - exists w'. split; [exact Hres | exact Hgone].
Defined.

Lemma running_filter_cons (w : world) (cluster : string) (c : SkyTaskFuture)
    (l : list SkyTaskFuture) :
  filter (fun task => _task_status task = INIT ∧ _cluster_name task = cluster)
         (registry_values w) = c :: l →
  running_on_cluster w cluster.
Proof.
  intros Hf.
  assert (c ∈ filter (fun task => _task_status task = INIT ∧ _cluster_name task = cluster)
                     (registry_values w)) as Hin by (rewrite Hf; left).
  apply list_elem_of_filter in Hin as [[Hst Hcl] Hin].
  apply registry_values_elem in Hin as (n & b & Hn & Hc).
  exists n, b, c. done.
Qed.

Lemma running_on_cluster_dec (w : world) (cluster : string) :
  running_on_cluster w cluster ∨ ¬ running_on_cluster w cluster.
Proof.
  destruct (filter (fun task => _task_status task = INIT ∧ _cluster_name task = cluster)
                   (registry_values w)) as [|c l] eqn:Hf.
  - right. by apply running_filter_nil.
  - left. by eapply running_filter_cons.
Qed.

(** Once the torn-down controller is [DONE], the scan, which goes over all
    indexed controllers, finds exactly the other ones. *)
Lemma others_running_iff (w : world) (a : addr) (deleted_task : SkyTaskFuture)
    (cluster : string) :
  heap w !! a = Some deleted_task →
  _task_status deleted_task = DONE →
  others_running w a cluster ↔ running_on_cluster w cluster.
Proof.
  intros Ha Hdone. split.
  - intros (n & b & c & _ & H). exists n, b, c. done.
  - intros (n & b & c & Hn & Hc & Hst & Hcl). exists n, b, c.
    split; [|done]. intros ->. congruence.
Qed.

(** C4, as stated, fails in its second half: J1 is the only job on C2 and
    is torn down, so [sky.stop] is called; it raises an error other than
    [NotSupportedError], which [on_task_deleted] does not handle.  The
    error leaves [on_task_deleted] right after the [sky.stop] call,
    [delete_task] is not called and the job's marker is still in the
    object store. *)
Lemma C4_stop_error_skips_delete_task :
  let E := example_env (fun _ _ => Some (OtherError "ResourcesUnavailableError"))
                       (Returned "RUNNING") in
  let w := entering_teardown 0 (run E [ev_create J1] initial_world) in
  let deleted_task := default (SkyTaskFuture_init E J1) (heap w !! 0) in
  let m := ("s3://bucket/out", "host-0", "C2.J1") in
  let res := on_task_deleted E deleted_task w in
  heap w !! 0 = Some deleted_task
  ∧ _task_status deleted_task = DONE
  ∧ (m ∈ object_store w)
  ∧ res.2 = Some (OtherError "ResourcesUnavailableError")
  ∧ trace res.1 = trace w ++ [logger_warning "Stopping cluster C2"; sky_stop_call "C2"]
  ∧ (delete_task_call m ∉ trace res.1)
  ∧ (m ∈ object_store res.1).
Proof.
  intros E w deleted_task m res.
  split; [reflexivity|]. split; [reflexivity|].
  split; [apply (bool_decide_unpack _); vm_compute; exact I|].
  split; [reflexivity|]. split; [reflexivity|].
  split; apply (bool_decide_unpack _); vm_compute; exact I.
Qed.

(** C4, amended: when a controller's teardown runs (its status is already
    [DONE]), [sky.stop] is called on its cluster if and only if the
    registry indexes no other controller with that cluster name and
    status [INIT].  When [sky.stop] is not called, returns, or raises
    [NotSupportedError], [on_task_deleted] returns and the last thing it
    does is [delete_task] on the job's marker.  When [sky.stop] raises any
    other error, [on_task_deleted] raises it right after the call, and the
    marker is left as it was. *)
Theorem C4_stop_iff_last_on_cluster (E : SkyEnv) (w : world) (a : addr)
    (deleted_task : SkyTaskFuture) (sp : SkyPathSetting) :
  let cluster := _cluster_name deleted_task in
  let m := marker_of sp (unique_id E (_sky_path_setting deleted_task)) in
  let res := on_task_deleted E deleted_task w in
  let stop_result :=
    sky_stop E (trace w ++ [logger_warning ("Stopping cluster " +:+ cluster)]) cluster in
  heap w !! a = Some deleted_task →
  _task_status deleted_task = DONE →
  SkyTaskTracker_sky_path_setting w = Some sp →
  ∃ l, trace res.1 = trace w ++ l
       ∧ (sky_stop_call cluster ∈ l ↔ ¬ others_running w a cluster)
       ∧ (others_running w a cluster
          ∨ stop_result = None
          ∨ stop_result = Some NotSupportedError →
          res.2 = None
          ∧ last l = Some (delete_task_call m)
          ∧ object_store res.1 = object_store w ∖ {[m]})
       ∧ (∀ e, ¬ others_running w a cluster →
               stop_result = Some e →
               e ≠ NotSupportedError →
               res.2 = Some e
               ∧ last l = Some (sky_stop_call cluster)
               ∧ (delete_task_call m ∉ l)
               ∧ object_store res.1 = object_store w).
Proof.
  intros cluster m res stop_result Ha Hdone Hsp. subst res stop_result.
  setoid_rewrite (others_running_iff w a deleted_task cluster Ha Hdone).
  destruct (running_on_cluster_dec w cluster) as [Hrun|Hidle].
  - rewrite (on_task_deleted_busy E deleted_task w sp Hrun Hsp). simpl.
    exists [delete_task_call m]. split; [done|].
    split; [|split; [done|]; by intros e ?].
    split; [|done].
    intros Hin. apply list_elem_of_singleton in Hin. discriminate.
  - rewrite (on_task_deleted_idle E deleted_task w sp Hidle Hsp).
    simpl. fold cluster.
    destruct (sky_stop E (trace w ++ [logger_warning ("Stopping cluster " +:+ cluster)]) cluster)
      as [e|] eqn:Hstop.
    + destruct (decide (e = NotSupportedError)) as [->|Hne].
      * simpl. eexists. split; [by rewrite <- !app_assoc|].
        split; [split; [done|]; intros _; set_solver|].
        split; [done|]. by intros e _ [= <-] ?.
      * exists [logger_warning ("Stopping cluster " +:+ cluster); sky_stop_call cluster].
        split.
        { destruct e; simpl; rewrite <- ?app_assoc; done. }
        split; [split; [done|]; intros _; set_solver|].
        split.
        { intros [Hrun|[?|[= ->]]]; done. }
        intros e' _ [= <-] _.
        split; [by destruct e|]. split; [done|].
        split; [|by destruct e].
        intros Hin. repeat (apply elem_of_cons in Hin as [Hin|Hin]; [discriminate|]).
        by apply elem_of_nil in Hin.
    + simpl. eexists. split; [by rewrite <- !app_assoc|].
      split; [split; [done|]; intros _; set_solver|].
      split; [done|]. by intros e _ ? ?.
Qed.

(** The witness is the first half of the spec's scenario: J1 and J2 both
    run on C2 and J1 is torn down; J2 is still [INIT], so there is no
    [sky.stop], and the marker of J1 is deleted. *)
Lemma C4_stop_iff_last_on_cluster_witness :
  let E := example_env stop_succeeds (Returned "RUNNING") in
  let w := entering_teardown 0 (run E [ev_create J1; ev_create J2] initial_world) in
  let deleted_task := default (SkyTaskFuture_init E J1) (heap w !! 0) in
  ∃ l, trace (on_task_deleted E deleted_task w).1 = trace w ++ l
       ∧ (sky_stop_call "C2" ∈ l ↔ ¬ others_running w 0 "C2")
       ∧ (on_task_deleted E deleted_task w).2 = None.
Proof.
  intros E w deleted_task.
  destruct (C4_stop_iff_last_on_cluster E w 0 deleted_task
              (mkSkyPathSetting "s3://bucket/out" "host-0"))
    as (l & Htrace & Hiff & Hdel & _).
  - reflexivity.
  - reflexivity.
  - reflexivity.
  - exists l. split; [exact Htrace|]. split; [exact Hiff|].
    apply Hdel. right. left. reflexivity.
Defined.

(** The spec's scenario, run: deleting J1 leaves the cluster alone,
    deleting J2 afterwards stops it, once. *)
Example two_jobs_on_one_cluster :
  let E := example_env stop_succeeds (Returned "RUNNING") in
  stops (trace (run E delete_J1 initial_world)) = []
  ∧ stops (trace (run E delete_J1_then_J2 initial_world)) = [sky_stop_call "C2"].
Proof. split; vm_compute; reflexivity. Qed.

(** ** The states of the agent process *)

Lemma teardowns_app (a : addr) (l l' : list effect) :
  teardowns a (l ++ l') = teardowns a l + teardowns a l'.
Proof. unfold teardowns. by rewrite filter_app, length_app. Qed.

Lemma teardowns_quiet (a : addr) (e : effect) :
  is_teardown e = false → teardowns a [e] = 0.
Proof.
  intros He. unfold teardowns. rewrite filter_cons_False; [done|].
  intros ->. done.
Qed.

Lemma teardowns_call (a b : addr) :
  teardowns a [cancel_callback_call b] = if decide (a = b) then 1 else 0.
Proof.
  unfold teardowns. destruct (decide (a = b)) as [->|Hne].
  - by rewrite filter_cons_True.
  - rewrite filter_cons_False; [done|]. congruence.
Qed.

Lemma status_at_store_object (a b : addr) (c : SkyTaskFuture) (w : world) :
  status_at b (store_object a c w)
  = if decide (a = b ∧ a < length (heap w)) then Some (_task_status c) else status_at b w.
Proof.
  unfold status_at, store_object. simpl.
  destruct (decide (a = b ∧ a < length (heap w))) as [[-> Hlt]|Hno].
  - by rewrite list_lookup_insert_eq.
  - destruct (decide (a = b)) as [->|Hne].
    + rewrite list_insert_ge; [done|]. lia.
    + by rewrite list_lookup_insert_ne.
Qed.

Lemma status_at_store_same (a b : addr) (c c' : SkyTaskFuture) (w : world) :
  heap w !! a = Some c → _task_status c' = _task_status c →
  status_at b (store_object a c' w) = status_at b w.
Proof.
  intros Ha Hst. rewrite status_at_store_object.
  destruct (decide _) as [[-> _]|]; [|done].
  unfold status_at. rewrite Ha. simpl. congruence.
Qed.

Lemma wf_initial : wf initial_world.
Proof.
  split; simpl.
  - intros n a. by rewrite lookup_empty.
  - done.
  - intros a c. by destruct a.
  - intros a. unfold status_at. simpl. by destruct a.
Qed.

Lemma wf_emit (e : effect) (w : world) :
  wf w → is_teardown e = false → wf (emit e w).
Proof.
  intros [H1 H2 H3 H4] He. split; simpl; try done.
  intros a. rewrite teardowns_app, (teardowns_quiet a e He), Nat.add_0_r. apply H4.
Qed.

Lemma wf_set_object_store (s : gset marker) (w : world) :
  wf w → wf (set_object_store s w).
Proof. intros [H1 H2 H3 H4]. split; done. Qed.

Lemma wf_set_tracker_setting (sp : SkyPathSetting) (w : world) :
  wf w → wf (set_tracker_setting sp w).
Proof. intros [H1 H2 H3 H4]. split; simpl; try done. Qed.

Lemma wf_store_object (a : addr) (c c' : SkyTaskFuture) (w : world) :
  wf w → heap w !! a = Some c → _task_status c' = _task_status c → ctrl_wf c' →
  wf (store_object a c' w).
Proof.
  intros [H1 H2 H3 H4] Ha Hst Hc'. split.
  - intros n b Hn. simpl. rewrite length_insert. by eapply H1.
  - done.
  - intros b x. simpl. intros Hb.
    apply list_lookup_insert_Some in Hb as [(-> & -> & _)|[_ Hb]]; [done|]. by eapply H3.
  - intros b. rewrite (status_at_store_same a b c c' w Ha Hst). apply H4.
Qed.

Lemma wf_alloc (c : SkyTaskFuture) (w : world) :
  wf w → ctrl_wf c → _task_status c = INIT → wf (alloc c w).2.
Proof.
  intros [H1 H2 H3 H4] Hc Hst. split; simpl.
  - intros n a Hn. rewrite length_app. specialize (H1 n a Hn). lia.
  - done.
  - intros a x Ha. apply lookup_app_Some in Ha as [Ha|[_ Ha]]; [by eapply H3|].
    apply list_lookup_singleton_Some in Ha as [_ <-]. done.
  - intros a. rewrite H4. unfold status_at. simpl.
    destruct (heap w !! a) as [x|] eqn:Ha.
    + by rewrite (lookup_app_l_Some _ _ _ _ Ha).
    + simpl. rewrite decide_False; [done|].
      rewrite lookup_app_r by (by apply lookup_ge_None).
      destruct (a - length (heap w)) as [|k]; simpl; [congruence|done].
Qed.

Lemma wf_set_registry_insert (n : string) (a : addr) (w : world) :
  wf w → a < length (heap w) → is_Some (SkyTaskTracker_sky_path_setting w) →
  wf (set_registry (<[n := a]> (_JOB_RESIGTRY w)) w).
Proof.
  intros [H1 H2 H3 H4] Ha Hsp. split; simpl; try done.
  intros n' a' Hn'. apply lookup_insert_Some in Hn' as [[_ <-]|[_ Hn']]; [done|].
  by eapply H1.
Qed.

(** The check-and-set of the done-callback: from [INIT] to [DONE], with
    one call of the teardown callback. *)
Lemma wf_entering_teardown (a : addr) (c : SkyTaskFuture) (w : world) :
  wf w → heap w !! a = Some c → _task_status c = INIT →
  wf (emit (cancel_callback_call a) (store_object a (with_status DONE c) w)).
Proof.
  intros Hwf Ha Hst. pose proof Hwf as [H1 H2 H3 H4].
  pose proof (lookup_lt_Some _ _ _ Ha) as Hlt.
  split; simpl.
  - intros n b Hn. rewrite length_insert. by eapply H1.
  - done.
  - intros b x Hb.
    apply list_lookup_insert_Some in Hb as [(-> & <- & _)|[_ Hb]]; [|by eapply H3].
    destruct (H3 _ _ Ha) as [Hs _]. split; [exact Hs | by right].
  - intros b. rewrite teardowns_app, teardowns_call, H4.
    change (mkWorld _ _ _ _ _) with
      (emit (cancel_callback_call a) (store_object a (with_status DONE c) w)).
    assert (status_at b (emit (cancel_callback_call a) (store_object a (with_status DONE c) w))
            = status_at b (store_object a (with_status DONE c) w)) as -> by done.
    rewrite status_at_store_object.
    destruct (decide (b = a)) as [->|Hne].
    + assert (status_at a w = Some INIT) as Hs
        by (unfold status_at; rewrite Ha; simpl; congruence).
      rewrite Hs. repeat case_decide; simpl in *; try done; naive_solver.
    + repeat case_decide; try lia; naive_solver.
Qed.

Lemma ctrl_wf_with_handler (eh : EventHandler) (c : SkyTaskFuture) :
  ctrl_wf c → is_Some (_event_handler c) → ctrl_wf (with_handler eh c).
Proof. intros [Hs Hst] Heh. split; [|done]. intros _. by apply Hs. Qed.

Lemma wf_signal (f : EventHandler → EventHandler) (a : addr) (w : world) :
  wf w → wf (signal f a w).1.
Proof.
  intros Hwf. unfold signal.
  destruct (heap w !! a) as [self|] eqn:Ha; [|done].
  destruct (_event_handler self) as [eh|] eqn:Heh; [|done].
  simpl. apply (wf_store_object a self); try done.
  apply ctrl_wf_with_handler; [by eapply wf_ctrl | by rewrite Heh].
Qed.

Lemma wf_touch_task (sp : SkyPathSetting) (id : string) (w : world) :
  wf w → wf (touch_task sp id w).
Proof. intros Hwf. apply wf_emit; [by apply wf_set_object_store | done]. Qed.

Lemma wf_delete_task (sp : SkyPathSetting) (id : string) (w : world) :
  wf w → wf (delete_task sp id w).
Proof. intros Hwf. apply wf_emit; [by apply wf_set_object_store | done]. Qed.

Lemma wf_on_task_deleted (E : SkyEnv) (deleted_task : SkyTaskFuture) (w : world) :
  wf w → wf (on_task_deleted E deleted_task w).1.
Proof.
  intros Hwf. unfold on_task_deleted.
  destruct (filter _ (registry_values w)) as [|c l].
  - destruct (sky_stop E _ _) as [[]|]; simpl;
      destruct (SkyTaskTracker_sky_path_setting w); simpl;
      repeat first [apply wf_delete_task | apply wf_emit; [|reflexivity]]; done.
  - destruct (SkyTaskTracker_sky_path_setting w); simpl; [by apply wf_delete_task | done].
Qed.

Lemma wf_launch_failed_callback_try (a : addr) (task : task_result) (cause : string)
    (cancel_on_done : bool) (w : world) :
  wf w → wf (launch_failed_callback_try a task cause cancel_on_done w).1.1.
Proof.
  intros Hwf. unfold launch_failed_callback_try.
  destruct task as [|error|].
  - destruct cancel_on_done; [|done].
    pose proof (wf_signal set_finished a w Hwf). by destruct (signal set_finished a w).
  - match goal with |- context [signal set_failed a ?w'] =>
      assert (wf w') as Hwf' by (repeat (apply wf_emit; [|reflexivity]); done);
      pose proof (wf_signal set_failed a w' Hwf'); by destruct (signal set_failed a w')
    end.
  - pose proof (wf_signal set_cancel a w Hwf). by destruct (signal set_cancel a w).
Qed.

Lemma wf_launch_failed_callback_finally (E : SkyEnv) (a : addr) (cause : string)
    (error_cause : option string) (pending : option exn) (w : world) :
  wf w → wf (launch_failed_callback_finally E a cause error_cause pending w).1.
Proof.
  intros Hwf. unfold launch_failed_callback_finally.
  match goal with |- context [emit ?e w] =>
    assert (wf (emit e w)) as Hwf2 by (by apply wf_emit); set (w2 := emit e w) in *
  end.
  destruct (heap w2 !! a) as [self|] eqn:Ha; [|done].
  destruct (decide (_task_status self = INIT)) as [Hst|]; [|done].
  destruct (_event_handler self) as [eh|] eqn:Heh; [|done].
  destruct (is_terminal eh); [|done].
  destruct (wf_ctrl w2 Hwf2 a self Ha) as [Hstarted _].
  destruct Hstarted as [-> _]; [by rewrite Heh|].
  pose proof (wf_entering_teardown a self w2 Hwf2 Ha Hst) as Hwf3.
  pose proof (wf_on_task_deleted E (with_status DONE self) _ Hwf3) as Hwf4.
  by destruct (on_task_deleted E _ _).
Qed.

Lemma wf_launch_failed_callback (E : SkyEnv) (a : addr) (task : task_result)
    (cause : string) (cancel_on_done : bool) (w : world) :
  wf w → wf (launch_failed_callback E a task cause cancel_on_done w).1.
Proof.
  intros Hwf. unfold launch_failed_callback.
  pose proof (wf_launch_failed_callback_try a task cause cancel_on_done w Hwf) as H1.
  destruct (launch_failed_callback_try a task cause cancel_on_done w) as [[w1 ec] pending].
  by apply wf_launch_failed_callback_finally.
Qed.

Lemma ctrl_wf_init (E : SkyEnv) (task_template : TaskTemplate) :
  ctrl_wf (SkyTaskFuture_init E task_template).
Proof. split; [|by left]. simpl. by intros [? [=]]. Qed.

Lemma wf_start (a : addr) (w : world) :
  wf w → wf (start a (Some SkyTaskTracker_on_task_deleted) w).
Proof.
  intros Hwf. unfold start. destruct (heap w !! a) as [self|] eqn:Ha; [|done].
  apply (wf_store_object a self).
  - repeat (apply wf_emit; [|reflexivity]). done.
  - done.
  - done.
  - split; [done|]. simpl. by eapply wf_ctrl.
Qed.

Lemma wf_try_first_register (E : SkyEnv) (task_template : TaskTemplate) (w : world) :
  wf w → wf (try_first_register E task_template w).
Proof.
  intros Hwf. unfold try_first_register. case_decide; [|done].
  apply wf_emit; [|done]. apply wf_set_tracker_setting. by apply wf_emit.
Qed.

(** After [try_first_register] the registry's path setting is there. *)
Lemma try_first_register_setting (E : SkyEnv) (task_template : TaskTemplate) (w : world) :
  wf w → is_Some (SkyTaskTracker_sky_path_setting (try_first_register E task_template w)).
Proof.
  intros Hwf. unfold try_first_register. case_decide as Hreg; [by eexists|].
  by apply wf_setting.
Qed.

Lemma try_first_register_frame (E : SkyEnv) (task_template : TaskTemplate) (w : world) :
  heap (try_first_register E task_template w) = heap w
  ∧ _JOB_RESIGTRY (try_first_register E task_template w) = _JOB_RESIGTRY w
  ∧ object_store (try_first_register E task_template w) = object_store w.
Proof. unfold try_first_register. by case_decide. Qed.

Lemma wf_register_sky_task (E : SkyEnv) (task_template : TaskTemplate) (w : world) :
  wf w → wf (register_sky_task E task_template w).2.
Proof.
  intros Hwf. unfold register_sky_task.
  pose proof (wf_try_first_register E task_template w Hwf) as Hwf1.
  set (w1 := try_first_register E task_template w) in *.
  pose proof (wf_alloc (SkyTaskFuture_init E task_template) w1 Hwf1
                (ctrl_wf_init E task_template) eq_refl) as Hwf2.
  destruct (alloc (SkyTaskFuture_init E task_template) w1) as [new_task w2] eqn:Halloc.
  simpl in Hwf2.
  destruct (SkyTaskTracker_sky_path_setting w2) as [sp|] eqn:Hsp; [|done].
  destruct (task_exists sp _ w2).
  - simpl. by apply wf_emit.
  - simpl. apply wf_set_registry_insert.
    + by apply wf_start, wf_touch_task.
    + injection Halloc as <- <-.
      unfold start. simpl. rewrite lookup_app_r by lia. rewrite Nat.sub_diag. simpl.
      rewrite length_insert, length_app. simpl. lia.
    + unfold start. simpl. destruct (heap w2 !! new_task); simpl; by rewrite Hsp.
Qed.

Lemma wf_create (E : SkyEnv) (task_template : TaskTemplate) (w : world) :
  wf w → wf (create E task_template w).2.
Proof.
  intros Hwf. unfold create.
  pose proof (wf_register_sky_task E task_template w Hwf) as H.
  destruct (register_sky_task E task_template w) as [[task|e] w1]; simpl in *; [|done].
  by destruct (heap w1 !! task).
Qed.

(** [remote_deletion] only adds to the trace: the upload, the pool call,
    or the pool call and then the upload. *)
Lemma remote_deletion_world (E : SkyEnv) (resource_meta : SkyPilotMetadata) (utc_time : Z)
    (last_upload_time : option Z) (w : world) :
  let down := pool_sky_down_call (meta_cluster_name resource_meta) in
  let upload := to_proto_and_upload (job_name resource_meta) in
  let w' := (remote_deletion E resource_meta utc_time last_upload_time w).1 in
  w' = emit upload w ∨ w' = emit down w ∨ w' = emit upload (emit down w).
Proof.
  simpl. unfold remote_deletion, remote_deletion_upload.
  destruct (negb _); [|by left].
  destruct (pool_sky_down E _ _); simpl; auto.
Qed.

Lemma wf_delete (E : SkyEnv) (resource_meta : SkyPilotMetadata) (utc_time : Z)
    (last_upload_time : option Z) (w : world) :
  wf w → wf (delete E resource_meta utc_time last_upload_time w).1.
Proof.
  intros Hwf. unfold delete. destruct (delete_branch resource_meta w) as [|existed_task].
  - destruct (remote_deletion_world E resource_meta utc_time last_upload_time w)
      as [-> | [-> | ->]]; repeat apply wf_emit; done.
  - by apply wf_signal.
Qed.

Lemma wf_step (E : SkyEnv) (ev : event) (w : world) : wf w → wf (step E ev w).
Proof.
  intros Hwf. destruct ev as [tpl|meta now last|a k task|a s|m|m]; simpl.
  - by apply wf_create.
  - by apply wf_delete.
  - destruct (heap w !! a) as [c|]; [|done].
    destruct (coro_callback k c) as [cb|]; [|done].
    by apply wf_launch_failed_callback.
  - by apply wf_signal.
  - by apply wf_set_object_store.
  - by apply wf_set_object_store.
Qed.

Lemma wf_run (E : SkyEnv) (evs : list event) (w : world) : wf w → wf (run E evs w).
Proof.
  revert w. induction evs as [|ev evs IH]; intros w Hwf; [done|].
  simpl. apply IH. by apply wf_step.
Qed.

Lemma run_app (E : SkyEnv) (evs evs' : list event) (w : world) :
  run E (evs ++ evs') w = run E evs' (run E evs w).
Proof. unfold run. apply foldl_app. Qed.

(** ** The trace only grows *)

Lemma prefix_emit (e : effect) (w w' : world) :
  trace w `prefix_of` trace w' → trace w `prefix_of` trace (emit e w').
Proof. intros H. etrans; [exact H|]. by apply prefix_app_r. Qed.

Local Ltac solve_prefix := simpl; repeat apply prefix_app_r; reflexivity.

Lemma trace_signal (f : EventHandler → EventHandler) (a : addr) (w : world) :
  trace (signal f a w).1 = trace w.
Proof.
  unfold signal. destruct (heap w !! a) as [self|]; [|done].
  by destruct (_event_handler self).
Qed.

Lemma heap_on_task_deleted (E : SkyEnv) (deleted_task : SkyTaskFuture) (w : world) :
  heap (on_task_deleted E deleted_task w).1 = heap w.
Proof.
  unfold on_task_deleted.
  destruct (filter _ (registry_values w)) as [|c l].
  - destruct (sky_stop E _ _) as [[]|]; simpl;
      by destruct (SkyTaskTracker_sky_path_setting w).
  - by destruct (SkyTaskTracker_sky_path_setting w).
Qed.

Lemma prefix_on_task_deleted (E : SkyEnv) (deleted_task : SkyTaskFuture) (w : world) :
  trace w `prefix_of` trace (on_task_deleted E deleted_task w).1.
Proof.
  unfold on_task_deleted.
  destruct (filter _ (registry_values w)) as [|c l].
  - destruct (sky_stop E _ _) as [[]|]; simpl;
      destruct (SkyTaskTracker_sky_path_setting w); solve_prefix.
  - destruct (SkyTaskTracker_sky_path_setting w); solve_prefix.
Qed.

Lemma prefix_launch_failed_callback_try (a : addr) (task : task_result) (cause : string)
    (cancel_on_done : bool) (w : world) :
  trace w `prefix_of` trace (launch_failed_callback_try a task cause cancel_on_done w).1.1.
Proof.
  unfold launch_failed_callback_try. destruct task as [|error|].
  - destruct cancel_on_done; [|done].
    pose proof (trace_signal set_finished a w) as H.
    destruct (signal set_finished a w). simpl in *. by rewrite H.
  - match goal with |- context [signal set_failed a ?w'] =>
      pose proof (trace_signal set_failed a w') as H;
      destruct (signal set_failed a w'); simpl in *; rewrite H
    end.
    by do 2 apply prefix_app_r.
  - pose proof (trace_signal set_cancel a w) as H.
    destruct (signal set_cancel a w). simpl in *. by rewrite H.
Qed.

Lemma prefix_launch_failed_callback_finally (E : SkyEnv) (a : addr) (cause : string)
    (error_cause : option string) (pending : option exn) (w : world) :
  trace w `prefix_of` trace (launch_failed_callback_finally E a cause error_cause pending w).1.
Proof.
  unfold launch_failed_callback_finally.
  match goal with |- context [emit ?e w] =>
    assert (trace w `prefix_of` trace (emit e w)) as H2 by (by apply prefix_emit);
    set (w2 := emit e w) in *
  end.
  destruct (heap w2 !! a) as [self|]; [|done].
  destruct (decide (_task_status self = INIT)); [|done].
  destruct (_event_handler self) as [eh|]; [|done].
  destruct (is_terminal eh); [|done].
  destruct (_cancel_callback self) as [[]|]; [|done].
  match goal with |- context [on_task_deleted E ?d ?w3] =>
    pose proof (prefix_on_task_deleted E d w3) as H3; destruct (on_task_deleted E d w3)
  end.
  simpl in *. etrans; [exact H2|]. etrans; [|exact H3]. by apply prefix_app_r.
Qed.

Lemma prefix_launch_failed_callback (E : SkyEnv) (a : addr) (task : task_result)
    (cause : string) (cancel_on_done : bool) (w : world) :
  trace w `prefix_of` trace (launch_failed_callback E a task cause cancel_on_done w).1.
Proof.
  unfold launch_failed_callback.
  pose proof (prefix_launch_failed_callback_try a task cause cancel_on_done w) as H1.
  destruct (launch_failed_callback_try a task cause cancel_on_done w) as [[w1 ec] pending].
  etrans; [exact H1|]. apply prefix_launch_failed_callback_finally.
Qed.

Lemma prefix_try_first_register (E : SkyEnv) (task_template : TaskTemplate) (w : world) :
  trace w `prefix_of` trace (try_first_register E task_template w).
Proof.
  unfold try_first_register. case_decide; [|done]. simpl.
  rewrite <- app_assoc. by apply prefix_app_r.
Qed.

Lemma trace_start (a : addr) (callback : option Callback) (w : world) :
  trace w `prefix_of` trace (start a callback w).
Proof.
  unfold start. destruct (heap w !! a); [|done]. simpl.
  rewrite <- !app_assoc. by apply prefix_app_r.
Qed.

Lemma prefix_register_sky_task (E : SkyEnv) (task_template : TaskTemplate) (w : world) :
  trace w `prefix_of` trace (register_sky_task E task_template w).2.
Proof.
  unfold register_sky_task.
  pose proof (prefix_try_first_register E task_template w) as H1.
  set (w1 := try_first_register E task_template w) in *. simpl.
  destruct (SkyTaskTracker_sky_path_setting w1) as [sp|]; [|done].
  match goal with |- context [task_exists sp ?id ?w2] => destruct (task_exists sp id w2) end.
  - simpl. etrans; [exact H1|]. by apply prefix_app_r.
  - simpl. etrans; [exact H1|]. etrans; [|apply trace_start]. simpl. by apply prefix_app_r.
Qed.

Lemma prefix_step (E : SkyEnv) (ev : event) (w : world) :
  trace w `prefix_of` trace (step E ev w).
Proof.
  destruct ev as [tpl|meta now last|a k task|a s|m|m]; simpl; try done.
  - unfold create. pose proof (prefix_register_sky_task E tpl w) as H.
    destruct (register_sky_task E tpl w) as [[task|e] w1]; simpl in *; [|done].
    by destruct (heap w1 !! task).
  - unfold delete. destruct (delete_branch meta w).
    + destruct (remote_deletion_world E meta now last w) as [-> | [-> | ->]];
        repeat apply prefix_emit; done.
    + unfold cancel. by rewrite trace_signal.
  - destruct (heap w !! a) as [c|]; [|done].
    destruct (coro_callback k c) as [cb|]; [|done].
    apply prefix_launch_failed_callback.
  - by rewrite trace_signal.
Qed.

Lemma prefix_run (E : SkyEnv) (evs : list event) (w : world) :
  trace w `prefix_of` trace (run E evs w).
Proof.
  revert w. induction evs as [|ev evs IH]; intros w; [done|].
  simpl. etrans; [apply prefix_step | apply IH].
Qed.

Lemma teardowns_prefix (a : addr) (l l' : list effect) :
  l `prefix_of` l' → teardowns a l ≤ teardowns a l'.
Proof. intros [k ->]. rewrite teardowns_app. lia. Qed.

(** ** The check-and-set of the done-callback *)

Lemma signal_started (f : EventHandler → EventHandler) (a : addr) (w : world)
    (c : SkyTaskFuture) (eh : EventHandler) :
  heap w !! a = Some c → _event_handler c = Some eh →
  signal f a w = (store_object a (with_handler (f eh) c) w, None)
  ∧ heap (store_object a (with_handler (f eh) c) w) !! a = Some (with_handler (f eh) c).
Proof.
  intros Ha Heh. unfold signal. rewrite Ha, Heh. split; [done|].
  simpl. apply list_lookup_insert_eq. by eapply lookup_lt_Some.
Qed.

(** After the [try] block of a done-callback that [sees_terminal], the
    handler of the controller is terminal. *)
Lemma launch_failed_callback_try_terminal (a : addr) (k : coro_kind) (task : task_result)
    (cb : done_callback) (w : world) (c : SkyTaskFuture) (eh : EventHandler) :
  heap w !! a = Some c → _event_handler c = Some eh → started c →
  coro_callback k c = Some cb →
  sees_terminal eh k task = true →
  ∃ c' eh',
    heap (launch_failed_callback_try a task (cause cb) (cancel_on_done cb) w).1.1 !! a = Some c'
    ∧ _event_handler c' = Some eh' ∧ is_terminal eh' = true.
Proof.
  intros Ha Heh (_ & Hl & Hc & Hu) Hcb Hsees. unfold launch_failed_callback_try.
  destruct task as [|error|].
  - destruct k; simpl in Hcb; try congruence.
    + assert (cb = mkDoneCallback "launch" false) as -> by congruence. simpl.
      exists c, eh. unfold sees_terminal in Hsees. rewrite orb_false_r in Hsees. done.
    + assert (cb = mkDoneCallback "deletion status" true) as -> by congruence. simpl.
      destruct (signal_started set_finished a w c eh Ha Heh) as [-> Hlook]. simpl.
      eexists _, _. split; [exact Hlook|]. split; [done|].
      unfold is_terminal. simpl. apply orb_true_r.
    + assert (cb = mkDoneCallback "upload status" true) as -> by congruence. simpl.
      destruct (signal_started set_finished a w c eh Ha Heh) as [-> Hlook]. simpl.
      eexists _, _. split; [exact Hlook|]. split; [done|].
      unfold is_terminal. simpl. apply orb_true_r.
  - match goal with |- context [signal set_failed a ?w'] =>
      destruct (signal_started set_failed a w' c eh Ha Heh) as [-> Hlook]
    end.
    simpl. eexists _, _. split; [exact Hlook|]. split; [done|]. done.
  - destruct (signal_started set_cancel a w c eh Ha Heh) as [-> Hlook]. simpl.
    eexists _, _. split; [exact Hlook|]. split; [done|].
    unfold is_terminal. simpl. by rewrite orb_true_r.
Qed.

(** The [finally] block on a controller whose handler is terminal leaves
    it [DONE]. *)
Lemma launch_failed_callback_finally_done (E : SkyEnv) (a : addr) (cause : string)
    (error_cause : option string) (pending : option exn) (w : world)
    (c : SkyTaskFuture) (eh : EventHandler) :
  wf w → heap w !! a = Some c → _event_handler c = Some eh → is_terminal eh = true →
  status_at a (launch_failed_callback_finally E a cause error_cause pending w).1 = Some DONE.
Proof.
  intros Hwf Ha Heh Hterm. unfold launch_failed_callback_finally.
  match goal with |- context [emit ?e w] =>
    assert (heap (emit e w) !! a = Some c) as Ha2 by done; set (w2 := emit e w) in *
  end.
  rewrite Ha2. destruct (wf_ctrl w Hwf a c Ha) as [Hstarted Hst].
  destruct (decide (_task_status c = INIT)) as [Hinit|Hn].
  - rewrite Heh, Hterm.
    destruct Hstarted as [-> _]; [by rewrite Heh|].
    match goal with |- context [on_task_deleted E ?d ?w3] =>
      pose proof (heap_on_task_deleted E d w3) as Hheap; destruct (on_task_deleted E d w3)
    end.
    simpl in *. unfold status_at. rewrite Hheap.
    rewrite list_lookup_insert_eq by (by eapply lookup_lt_Some). done.
  - simpl. unfold status_at. rewrite Ha2. simpl. destruct Hst; congruence.
Qed.

Lemma step_done_sees_terminal (E : SkyEnv) (a : addr) (k : coro_kind) (task : task_result)
    (w : world) (eh : EventHandler) :
  wf w → handler_of a w = Some eh → k ≠ zip_coro → sees_terminal eh k task = true →
  status_at a (step E (ev_done a k task) w) = Some DONE.
Proof.
  intros Hwf Hh Hk Hsees. unfold handler_of in Hh.
  destruct (heap w !! a) as [c|] eqn:Ha; [|done]. simpl in Hh.
  destruct (wf_ctrl w Hwf a c Ha) as [Hstarted _].
  specialize (Hstarted ltac:(by rewrite Hh)).
  assert (∃ cb, coro_callback k c = Some cb) as [cb Hcb].
  { destruct Hstarted as (_ & Hl & Hc & Hu). destruct k; simpl; eauto. done. }
  simpl. rewrite Ha, Hcb. unfold launch_failed_callback.
  pose proof (wf_launch_failed_callback_try a task (cause cb) (cancel_on_done cb) w Hwf) as Hwf1.
  destruct (launch_failed_callback_try_terminal a k task cb w c eh Ha Hh Hstarted Hcb Hsees)
    as (c' & eh' & Ha' & Heh' & Hterm).
  destruct (launch_failed_callback_try a task (cause cb) (cancel_on_done cb) w)
    as [[w1 ec] pending].
  by eapply launch_failed_callback_finally_done.
Qed.

Lemma teardowns_le_1 (w : world) (a : addr) : wf w → teardowns a (trace w) ≤ 1.
Proof. intros Hwf. rewrite (wf_teardowns w Hwf). case_decide; lia. Qed.

Lemma DONE_iff_teardown (w : world) (a : addr) :
  wf w → status_at a w = Some DONE ↔ teardowns a (trace w) = 1.
Proof. intros Hwf. rewrite (wf_teardowns w Hwf). case_decide; split; done. Qed.

(** C3: in every run of the agent process and for every controller, the
    teardown callback has been called at most once, and exactly once when
    the status is [DONE]; a controller that is [DONE] stays [DONE], with
    one teardown, whatever happens later; and when a done-callback sees a
    terminal signal, however many of [failed], [cancel], [finished] are
    set, the count of teardowns is exactly one from then on. *)
Theorem C3_done_once_teardown_once (E : SkyEnv) (evs evs' : list event) (a : addr) :
  let w := run E evs initial_world in
  teardowns a (trace w) ≤ 1
  ∧ (status_at a w = Some DONE ↔ teardowns a (trace w) = 1)
  ∧ (status_at a w = Some DONE →
     status_at a (run E evs' w) = Some DONE ∧ teardowns a (trace (run E evs' w)) = 1)
  ∧ (∀ eh k task,
       handler_of a w = Some eh → k ≠ zip_coro → sees_terminal eh k task = true →
       status_at a (step E (ev_done a k task) w) = Some DONE
       ∧ teardowns a (trace (run E evs' (step E (ev_done a k task) w))) = 1).
Proof.
  intros w.
  assert (wf w) as Hwf by apply wf_run, wf_initial.
  assert (∀ w0, wf w0 → status_at a w0 = Some DONE →
                status_at a (run E evs' w0) = Some DONE
                ∧ teardowns a (trace (run E evs' w0)) = 1) as Hstable.
  { intros w0 Hwf0 Hdone.
    assert (wf (run E evs' w0)) as Hwf' by (by apply wf_run).
    assert (teardowns a (trace (run E evs' w0)) = 1) as Hone.
    { apply (DONE_iff_teardown w0 a Hwf0) in Hdone.
      pose proof (teardowns_prefix a _ _ (prefix_run E evs' w0)).
      pose proof (teardowns_le_1 _ a Hwf'). lia. }
    split; [|done]. by apply DONE_iff_teardown. }
  split; [by apply teardowns_le_1|].
  split; [by apply DONE_iff_teardown|].
  split; [by apply Hstable|].
  intros eh k task Hh Hk Hsees.
  pose proof (step_done_sees_terminal E a k task w eh Hwf Hh Hk Hsees) as Hdone.
  split; [done|]. apply Hstable; [by apply wf_step | done].
Qed.

Lemma C3_done_once_teardown_once_witness :
  let E := example_env stop_succeeds (Returned "RUNNING") in
  let failed_and_cancelled := [ev_create J1; ev_signal 0 sig_failed; ev_signal 0 sig_cancel] in
  let later := [ev_done 0 status_check_coro task_cancelled;
                ev_done 0 status_upload_coro (task_raised "Traceback")] in
  teardowns 0 (trace (run E later
                        (step E (ev_done 0 launch_coro task_returned)
                              (run E failed_and_cancelled initial_world)))) = 1.
Proof.
  intros E failed_and_cancelled later.
  apply (C3_done_once_teardown_once E failed_and_cancelled later 0)
    with (eh := mkEventHandler false true true false).
  - reflexivity.
  - discriminate.
  - reflexivity.
Defined.

(** ** Registration *)

Lemma try_first_register_eq (E : SkyEnv) (task_template : TaskTemplate) (w : world) :
  try_first_register E task_template w
  = if decide (_JOB_RESIGTRY w = ∅) then
      mkWorld (heap w) (_JOB_RESIGTRY w)
        (Some (mkSkyPathSetting (raw_output_data_prefix E (container_args task_template))
                                (get_user_hash E)))
        (object_store w)
        (trace w ++ [setup_cloud_credential; create_task zip_coro None])
    else w.
Proof.
  unfold try_first_register. case_decide; [|done].
  unfold emit, set_tracker_setting. simpl. by rewrite <- app_assoc.
Qed.

(** The branch of [register_sky_task] that finds the marker. *)
Lemma register_sky_task_exists (E : SkyEnv) (task_template : TaskTemplate) (w : world)
    (sp : SkyPathSetting) :
  let new := SkyTaskFuture_init E task_template in
  let w1 := try_first_register E task_template w in
  SkyTaskTracker_sky_path_setting w1 = Some sp →
  task_exists sp (unique_id E (_sky_path_setting new)) w = true →
  register_sky_task E task_template w
  = (Returned (length (heap w)),
     mkWorld (heap w ++ [new]) (_JOB_RESIGTRY w) (Some sp) (object_store w)
       (trace w1 ++ [logger_warning (_task_name new +:+ " task has already been created.")])).
Proof.
  intros new w1 Hsp Hex. unfold register_sky_task. fold w1. fold new.
  destruct (try_first_register_frame E task_template w) as (Hh & Hr & Ho).
  fold w1 in Hh, Hr, Ho.
  cbn -[SkyTaskFuture_init try_first_register start touch_task].
  fold new. rewrite Hsp.
  unfold task_exists in *. cbn -[SkyTaskFuture_init try_first_register start touch_task].
  fold new. rewrite Ho, Hex.
  unfold emit. cbn -[SkyTaskFuture_init try_first_register start touch_task].
  by rewrite ?Hh, ?Hr, ?Hsp, ?Ho.
Qed.

(** The branch that does not: touch, start, index. *)
Lemma register_sky_task_fresh (E : SkyEnv) (task_template : TaskTemplate) (w : world)
    (sp : SkyPathSetting) :
  let new := SkyTaskFuture_init E task_template in
  let w1 := try_first_register E task_template w in
  let a := length (heap w) in
  let m := marker_of sp (unique_id E (_sky_path_setting new)) in
  SkyTaskTracker_sky_path_setting w1 = Some sp →
  task_exists sp (unique_id E (_sky_path_setting new)) w = false →
  register_sky_task E task_template w
  = (Returned a,
     mkWorld (heap w ++ [started_by (Some SkyTaskTracker_on_task_deleted) new])
       (<[_task_name new := a]> (_JOB_RESIGTRY w)) (Some sp) ({[m]} ∪ object_store w)
       (trace w1 ++ [touch_task_call m; process_start a; create_task launch_coro (Some a);
                     create_task status_check_coro (Some a);
                     create_task status_upload_coro (Some a)])).
Proof.
  intros new w1 a m Hsp Hex. unfold register_sky_task. fold w1. fold new.
  destruct (try_first_register_frame E task_template w) as (Hh & Hr & Ho).
  fold w1 in Hh, Hr, Ho.
  cbn -[SkyTaskFuture_init try_first_register start touch_task].
  fold new. rewrite Hsp.
  unfold task_exists in *. cbn -[SkyTaskFuture_init try_first_register start touch_task].
  fold new. rewrite Ho, Hex.
  rewrite Hh. fold a.
  erewrite start_spec; cycle 1.
  { cbn -[SkyTaskFuture_init]. rewrite ?Hh. rewrite lookup_app_r by lia.
    fold a. by rewrite Nat.sub_diag. }
  unfold set_registry. cbn -[SkyTaskFuture_init]. rewrite ?Hh, ?Hr, ?Hsp, ?Ho. fold m. fold new.
  f_equal. f_equal.
  - replace a with (length (heap w) + 0) at 1 by (unfold a; lia).
    by rewrite insert_app_r.
  - by rewrite <- app_assoc.
Qed.

Lemma launches_app (l l' : list effect) : launches (l ++ l') = launches l + launches l'.
Proof. unfold launches. by rewrite filter_app, length_app. Qed.

Lemma touches_app (m : marker) (l l' : list effect) :
  touches m (l ++ l') = touches m l + touches m l'.
Proof. unfold touches. by rewrite filter_app, length_app. Qed.

Lemma touches_try_first_register (E : SkyEnv) (task_template : TaskTemplate) (w : world)
    (m : marker) :
  touches m (trace (try_first_register E task_template w)) = touches m (trace w)
  ∧ launches (trace (try_first_register E task_template w)) = launches (trace w).
Proof.
  rewrite try_first_register_eq. case_decide; [|done]. simpl.
  rewrite touches_app, launches_app. split.
  - unfold touches. rewrite !filter_cons_False by done. simpl. lia.
  - unfold launches. rewrite !filter_cons_False by done. simpl. lia.
Qed.

Lemma touches_start (m : marker) (a : addr) :
  touches m [touch_task_call m; process_start a; create_task launch_coro (Some a);
             create_task status_check_coro (Some a);
             create_task status_upload_coro (Some a)] = 1.
Proof.
  unfold touches. rewrite filter_cons_True by done.
  by rewrite !filter_cons_False by done.
Qed.

(** C10, as stated, fails: the same process registers J1 twice.  The
    second call finds the marker and returns a fresh controller, at
    address 1, which is not indexed; but the name is indexed since the
    first call, so a later Delete for the job takes the in-process cancel
    path, on the first controller. *)
Lemma C10_delete_takes_cancel_path :
  let E := example_env stop_succeeds (Returned "RUNNING") in
  let w1 := (register_sky_task E J1 initial_world).2 in
  let second := register_sky_task E J1 w1 in
  task_exists (mkSkyPathSetting "s3://bucket/out" "host-0") "C2.J1" w1 = true
  ∧ second.1 = Returned 1
  ∧ delete_branch meta_J1 second.2 = cancel_path 0
  ∧ delete_branch meta_J1 second.2 ≠ remote_deletion_path
  ∧ handler_of 0 (delete E meta_J1 1700000000000000 (Some 1700000000000000%Z) second.2).1
    = Some (set_cancel EventHandler_new).
Proof. vm_compute. repeat split; done. Qed.

(** C10, amended: when [register_sky_task] finds the marker, the controller
    it returns is a fresh object on which [start] has not run ([INIT], no
    event handler, no coroutines, no launch process), no worker is
    launched, the registry table is unchanged and does not index the
    returned controller.  A later Delete for the job takes the remote
    deletion path exactly when the table did not already index the job's
    name; otherwise it cancels the controller indexed before, never the
    returned one. *)
Theorem C10_registration_of_existing_task (E : SkyEnv) (task_template : TaskTemplate)
    (w : world) (sp : SkyPathSetting) :
  let new := SkyTaskFuture_init E task_template in
  let a := length (heap w) in
  wf w →
  SkyTaskTracker_sky_path_setting (try_first_register E task_template w) = Some sp →
  task_exists sp (unique_id E (_sky_path_setting new)) w = true →
  ∃ w', register_sky_task E task_template w = (Returned a, w')
        ∧ heap w' = heap w ++ [new]
        ∧ (_task_status new = INIT ∧ _event_handler new = None ∧ _launch_coro new = None
           ∧ _status_check_coro new = None ∧ _status_upload_coro new = None
           ∧ _launched_process new = false)
        ∧ launches (trace w') = launches (trace w)
        ∧ _JOB_RESIGTRY w' = _JOB_RESIGTRY w
        ∧ (∀ n, _JOB_RESIGTRY w' !! n ≠ Some a)
        ∧ (∀ resource_meta, job_name resource_meta = _task_name new →
             delete_branch resource_meta w'
             = match _JOB_RESIGTRY w !! _task_name new with
               | Some existed_task => cancel_path existed_task
               | None => remote_deletion_path
               end
             ∧ delete_branch resource_meta w' ≠ cancel_path a).
Proof.
  intros new a Hwf Hsp Hex.
  rewrite (register_sky_task_exists E task_template w sp Hsp Hex).
  eexists. split; [reflexivity|]. cbn [heap trace _JOB_RESIGTRY]. fold new.
  assert (∀ n, _JOB_RESIGTRY w !! n ≠ Some a) as Hfresh.
  { intros n Hn. apply (wf_registry w Hwf) in Hn. unfold a in Hn. lia. }
  split; [done|]. split; [done|].
  split.
  { rewrite launches_app.
    destruct (touches_try_first_register E task_template w (marker_of sp "")) as [_ ->].
    unfold launches at 2. rewrite filter_cons_False by done. simpl. lia. }
  split; [done|]. split; [done|].
  intros resource_meta Hname. unfold delete_branch. cbn [_JOB_RESIGTRY]. rewrite Hname.
  split; [done|].
  destruct (_JOB_RESIGTRY w !! _task_name new) as [b|] eqn:Hb.
  - intros [= ->]. by eapply Hfresh.
  - discriminate.
Qed.

Lemma C10_registration_of_existing_task_witness :
  let E := example_env stop_succeeds (Returned "RUNNING") in
  let w := step E (ev_remote_touch ("s3://bucket/out", "host-0", "C2.J1")) initial_world in
  ∃ w', register_sky_task E J1 w = (Returned 0, w')
        ∧ _JOB_RESIGTRY w' = ∅
        ∧ delete_branch meta_J1 w' = remote_deletion_path.
Proof.
  intros E w.
  destruct (C10_registration_of_existing_task E J1 w
              (mkSkyPathSetting "s3://bucket/out" "host-0"))
    as (w' & Hreg & _ & _ & _ & Htable & _ & Hdelete).
  - apply wf_step, wf_initial.
  - reflexivity.
  - reflexivity.
  - exists w'. split; [exact Hreg|]. split; [exact Htable|].
    apply (Hdelete meta_J1). reflexivity.
Defined.

Lemma try_first_register_setting_again (E : SkyEnv) (task_template : TaskTemplate)
    (w w1 : world) (sp : SkyPathSetting) :
  SkyTaskTracker_sky_path_setting (try_first_register E task_template w) = Some sp →
  SkyTaskTracker_sky_path_setting w1 = Some sp →
  (_JOB_RESIGTRY w1 = ∅ → _JOB_RESIGTRY w = ∅) →
  SkyTaskTracker_sky_path_setting (try_first_register E task_template w1) = Some sp.
Proof.
  rewrite !try_first_register_eq. intros Hsp Hsp1 Hreg.
  destruct (decide (_JOB_RESIGTRY w1 = ∅)) as [H1|H1]; [|done].
  rewrite decide_True in Hsp by auto. done.
Qed.

Lemma marker_count (m : marker) (s : gset marker) :
  m ∈ s → size (filter (fun m' => m' = m) s) = 1.
Proof.
  intros Hm. assert (filter (fun m' => m' = m) s = {[m]}) as ->.
  { apply set_eq. intros x. rewrite elem_of_filter, elem_of_singleton.
    split; [by intros [-> _] | by intros ->]. }
  apply size_singleton.
Qed.

(** C1: two calls of [register_sky_task] in sequence for the same task
    template both return a controller, with the same remote job paths; the
    second call finds the marker through [task_exists] and starts nothing:
    it launches no worker and touches no marker, returns a controller that
    is not started and leaves the registry table alone.  Over both calls at
    most one worker is launched and the marker is touched at most once;
    afterwards the object store holds the marker exactly once. *)
Theorem C1_register_twice (E : SkyEnv) (task_template : TaskTemplate) (w : world) :
  let new := SkyTaskFuture_init E task_template in
  let id := unique_id E (_sky_path_setting new) in
  wf w →
  ∃ a1 w1 a2 w2 sp c1,
    register_sky_task E task_template w = (Returned a1, w1)
    ∧ register_sky_task E task_template w1 = (Returned a2, w2)
    ∧ SkyTaskTracker_sky_path_setting (try_first_register E task_template w1) = Some sp
    ∧ task_exists sp id w1 = true
    ∧ heap w2 !! a1 = Some c1 ∧ heap w2 !! a2 = Some new ∧ a1 ≠ a2
    ∧ _sky_path_setting c1 = _sky_path_setting new
    ∧ launches (trace w2) = launches (trace w1)
    ∧ launches (trace w1) ≤ launches (trace w) + 1
    ∧ touches (marker_of sp id) (trace w2) = touches (marker_of sp id) (trace w1)
    ∧ touches (marker_of sp id) (trace w1) ≤ touches (marker_of sp id) (trace w) + 1
    ∧ size (filter (fun m' => m' = marker_of sp id) (object_store w2)) = 1
    ∧ _JOB_RESIGTRY w2 = _JOB_RESIGTRY w1.
Proof.
  intros new id Hwf.
  destruct (try_first_register_setting E task_template w Hwf) as [sp Hsp].
  pose proof (touches_try_first_register E task_template w (marker_of sp id)) as [Ht Hl].
  assert (∀ w1 : world,
            SkyTaskTracker_sky_path_setting (try_first_register E task_template w1) = Some sp →
            task_exists sp id w1 = true →
            ∃ w2, register_sky_task E task_template w1 = (Returned (length (heap w1)), w2)
                  ∧ heap w2 = heap w1 ++ [new]
                  ∧ launches (trace w2) = launches (trace w1)
                  ∧ touches (marker_of sp id) (trace w2) = touches (marker_of sp id) (trace w1)
                  ∧ object_store w2 = object_store w1
                  ∧ _JOB_RESIGTRY w2 = _JOB_RESIGTRY w1) as Hsecond.
  { intros w1 Hsp1 Hex1.
    rewrite (register_sky_task_exists E task_template w1 sp Hsp1 Hex1).
    eexists. split; [reflexivity|]. cbn [heap trace object_store _JOB_RESIGTRY].
    pose proof (touches_try_first_register E task_template w1 (marker_of sp id)) as [Ht1 Hl1].
    split; [done|].
    split.
    { rewrite launches_app, Hl1. unfold launches at 2.
      rewrite filter_cons_False by done. simpl. lia. }
    split; [|done].
    rewrite touches_app, Ht1. unfold touches at 2.
    rewrite filter_cons_False by done. simpl. lia. }
  destruct (task_exists sp id w) eqn:Hex.
  - (* the marker was there before the first call *)
    pose proof (register_sky_task_exists E task_template w sp Hsp Hex) as Hfirst.
    cbv zeta in Hfirst. fold new in Hfirst.
    match type of Hfirst with _ = (_, ?w1') => set (w1 := w1') in * end.
    destruct (Hsecond w1) as (w2 & Hreg2 & Hheap2 & Hl2 & Ht2 & Hstore2 & Htable2).
    { by apply (try_first_register_setting_again E task_template w). }
    { done. }
    exists (length (heap w)), w1, (length (heap w1)), w2, sp, new.
    split; [done|]. split; [done|].
    split; [by apply (try_first_register_setting_again E task_template w)|].
    split; [done|].
    rewrite Hheap2. subst w1. cbn [heap trace object_store _JOB_RESIGTRY] in *.
    split.
    { rewrite <- app_assoc. rewrite lookup_app_r by lia. by rewrite Nat.sub_diag. }
    split.
    { rewrite lookup_app_r by lia. by rewrite Nat.sub_diag. }
    split; [rewrite length_app; simpl; lia|].
    split; [done|]. split; [done|].
    split.
    { rewrite launches_app, Hl. unfold launches at 2.
      rewrite filter_cons_False by done. simpl. lia. }
    split; [done|].
    split.
    { rewrite touches_app, Ht. unfold touches at 2.
      rewrite filter_cons_False by done. simpl. lia. }
    split; [|done].
    rewrite Hstore2. apply marker_count. unfold task_exists in Hex.
    by apply bool_decide_eq_true in Hex.
  - (* the first call touches the marker and starts the controller *)
    pose proof (register_sky_task_fresh E task_template w sp Hsp Hex) as Hfirst.
    cbv zeta in Hfirst. fold new in Hfirst. fold id in Hfirst.
    match type of Hfirst with _ = (_, ?w1') => set (w1 := w1') in * end.
    assert (task_exists sp id w1 = true) as Hex1.
    { unfold task_exists. apply bool_decide_eq_true. subst w1. simpl.
      apply elem_of_union_l, elem_of_singleton. done. }
    assert (SkyTaskTracker_sky_path_setting (try_first_register E task_template w1) = Some sp)
      as Hsp1.
    { apply (try_first_register_setting_again E task_template w); [done..|].
      subst w1. cbn [_JOB_RESIGTRY]. intros Hempty.
      by apply insert_non_empty in Hempty. }
    destruct (Hsecond w1 Hsp1 Hex1) as (w2 & Hreg2 & Hheap2 & Hl2 & Ht2 & Hstore2 & Htable2).
    exists (length (heap w)), w1, (length (heap w1)), w2, sp,
      (started_by (Some SkyTaskTracker_on_task_deleted) new).
    split; [done|]. split; [done|]. split; [done|]. split; [done|].
    rewrite Hheap2. subst w1. cbn [heap trace object_store _JOB_RESIGTRY] in *.
    split.
    { rewrite <- app_assoc. rewrite lookup_app_r by lia. by rewrite Nat.sub_diag. }
    split.
    { rewrite lookup_app_r by lia. by rewrite Nat.sub_diag. }
    split; [rewrite length_app; simpl; lia|].
    split; [done|]. split; [done|].
    split.
    { rewrite launches_app, Hl. unfold launches at 2.
      rewrite filter_cons_False by done. rewrite filter_cons_True by done.
      rewrite !filter_cons_False by done. simpl. lia. }
    split; [done|].
    split.
    { rewrite touches_app, Ht, touches_start. lia. }
    split; [|done].
    rewrite Hstore2. apply marker_count. apply elem_of_union_l, elem_of_singleton. done.
Qed.

Lemma C1_register_twice_witness :
  let E := example_env stop_succeeds (Returned "RUNNING") in
  ∃ w1 w2,
    register_sky_task E J1 initial_world = (Returned 0, w1)
    ∧ register_sky_task E J1 w1 = (Returned 1, w2)
    ∧ launches (trace w2) = 1.
Proof.
  intros E.
  destruct (C1_register_twice E J1 initial_world wf_initial)
    as (a1 & w1 & a2 & w2 & sp & c1 & H1 & H2 & _ & _ & _ & _ & _ & _ & Hl2 & _).
  exists w1, w2.
  assert (a1 = 0 ∧ w1 = (register_sky_task E J1 initial_world).2) as [-> Hw1].
  { rewrite H1. split; [|done]. by injection (eq_trans (eq_sym H1) eq_refl). }
  assert (a2 = 1) as ->.
  { rewrite Hw1 in H2. by injection (eq_trans (eq_sym H2) eq_refl). }
  split; [exact H1|]. split; [exact H2|].
  rewrite Hl2, Hw1. reflexivity.
Defined.

(** * Further properties of the code

    ** The supervising coroutine *)

Lemma status_poller_exit_ticks (p : WrappedProcess) (eh : EventHandler) (now : nat) :
  poll_ticks (status_poller_exit p eh now) = now.
Proof.
  unfold status_poller_exit.
  destruct (exception p) as [[[[e tb]|]|err] p1]; [|done..].
  destruct (exception p1) as [[[[e' tb']|]|err'] p2]; done.
Qed.

Lemma status_poller_exited (fuel now : nat) (wk : worker) (handler_at : nat → EventHandler)
    (cancelled_at : nat → bool) :
  exitcode wk now ≠ None →
  status_poller fuel now wk handler_at cancelled_at
  = Some (status_poller_exit (process_at wk now) (handler_at now) now).
Proof.
  intros Hexit. destruct fuel; simpl; by destruct (exitcode wk now).
Qed.

Lemma status_poller_finishes_by (d now : nat) (wk : worker) (handler_at : nat → EventHandler)
    (cancelled_at : nat → bool) :
  exitcode wk (now + d) ≠ None
  ∨ (1 ≤ d ∧ is_terminal (handler_at (now + d)) = true)
  ∨ (1 ≤ d ∧ cancelled_at (now + d) = true) →
  ∃ st, poll_ticks st ≤ now + d
        ∧ ∀ fuel, d ≤ fuel → status_poller fuel now wk handler_at cancelled_at = Some st.
Proof.
  revert now. induction d as [|d IH]; intros now Hev.
  - destruct Hev as [Hexit|[[Hd _]|[Hd _]]]; [|lia..]. rewrite Nat.add_0_r in Hexit.
    eexists. split; [|intros fuel _; by apply status_poller_exited].
    rewrite status_poller_exit_ticks. lia.
  - destruct (exitcode wk now) as [z|] eqn:Hnow.
    { eexists. split; [|intros fuel _; apply status_poller_exited; by rewrite Hnow].
      rewrite status_poller_exit_ticks. lia. }
    destruct (cancelled_at (S now)) eqn:Hcancel.
    { eexists. split; [|intros [|fuel] Hfuel; [lia|]; simpl; by rewrite Hnow, Hcancel].
      simpl. lia. }
    destruct (is_terminal (handler_at (S now))) eqn:Hterm.
    { eexists. split; [|intros [|fuel] Hfuel; [lia|]; simpl; by rewrite Hnow, Hcancel, Hterm].
      simpl. lia. }
    destruct (IH (S now)) as (st & Hticks & Hst).
    { replace (S now + d) with (now + S d) by lia.
      destruct Hev as [Hexit|[[_ Hd]|[_ Hd]]]; [by left| |].
      - right. left. split; [|done].
        destruct d; [|lia]. rewrite Nat.add_1_r in Hd. congruence.
      - right. right. split; [|done].
        destruct d; [|lia]. rewrite Nat.add_1_r in Hd. congruence. }
    exists st. split; [lia|].
    intros [|fuel] Hfuel; [lia|]. simpl. rewrite Hnow, Hcancel, Hterm. apply Hst. lia.
Qed.

(** X1: the supervising coroutine ends as soon as there is a reason to:
    if by tick [n] the worker has exited, a wake-up sees a terminal
    signal, or the coroutine is cancelled in a sleep, then [n] sleeps are
    enough for [status_poller] to finish, with the same final state
    however many more sleeps it is given, and it finishes no later than
    tick [n]. *)
Theorem status_poller_terminates (n : nat) (wk : worker) (handler_at : nat → EventHandler)
    (cancelled_at : nat → bool) :
  exitcode wk n ≠ None
  ∨ (1 ≤ n ∧ is_terminal (handler_at n) = true)
  ∨ (1 ≤ n ∧ cancelled_at n = true) →
  ∃ st, poll_ticks st ≤ n
        ∧ ∀ fuel, n ≤ fuel → status_poller fuel 0 wk handler_at cancelled_at = Some st.
Proof. intros Hev. by apply (status_poller_finishes_by n 0). Qed.

Lemma status_poller_terminates_witness :
  ∃ st, poll_ticks st ≤ 7
        ∧ ∀ fuel, 7 ≤ fuel →
            status_poller fuel 0 (finishes 4 target_returns) (fun _ => EventHandler_new)
              (fun _ => false) = Some st.
Proof.
  apply (status_poller_terminates 7 (finishes 4 target_returns) (fun _ => EventHandler_new)
           (fun _ => false)).
  left. discriminate.
Defined.

(** X2: with a worker that never exits, no terminal signal at any wake-up
    and no cancellation in any sleep, [status_poller] never finishes,
    whatever the number of sleeps. *)
Theorem status_poller_keeps_polling (fuel : nat) (wk : worker)
    (handler_at : nat → EventHandler) (cancelled_at : nat → bool) :
  (∀ k : nat, exitcode wk k = None) →
  (∀ k : nat, 1 ≤ k → is_terminal (handler_at k) = false) →
  (∀ k : nat, 1 ≤ k → cancelled_at k = false) →
  status_poller fuel 0 wk handler_at cancelled_at = None.
Proof.
  intros Hrun Hquiet Hkeep.
  replace fuel with (fuel + 0) by lia.
  rewrite status_poller_advance.
  - simpl. by rewrite Hrun.
  - intros j _. apply Hrun.
  - intros j Hj. apply Hquiet. lia.
  - intros j Hj. apply Hkeep. lia.
Qed.

Lemma status_poller_keeps_polling_witness :
  status_poller 50 0 runs_forever (fun _ => set_launch_done EventHandler_new)
    (fun _ => false) = None.
Proof.
  apply (status_poller_keeps_polling 50 runs_forever (fun _ => set_launch_done EventHandler_new)
           (fun _ => false)).
  - reflexivity.
  - reflexivity.
  - reflexivity.
Defined.

(** The worker writes at most one message. *)
Lemma process_at_pipe (wk : worker) (now : nat) :
  length (_pconn (process_at wk now)) ≤ 1.
Proof.
  destruct wk as [|t r]; simpl; [lia|].
  destruct (t <=? now)%nat; simpl; [|lia].
  destruct r as [|e tb [| |err]|]; simpl; lia.
Qed.

(** The code after the loop, on a pipe with at most one message: either
    it cleans up, having changed at most [launch_done], or the read of the
    message raised and nothing else was done. *)
Lemma status_poller_exit_cases (p : WrappedProcess) (eh : EventHandler) (now : nat) :
  length (_pconn p) ≤ 1 →
  let st := status_poller_exit p eh now in
  (poll_calls st = clean_up
   ∧ (poll_handler st = eh
      ∨ (poll_handler st = set_launch_done eh ∧ poll_result st = Returned tt)))
  ∨ (poll_calls st = []
     ∧ poll_handler st = eh
     ∧ ∃ err, poll_result st = Raised err ∧ head (_pconn p) = Some (Raised err)).
Proof.
  intros Hlen. unfold status_poller_exit, exception.
  destruct p as [[|[[[e tb]|]|err] [|x rest]] [[e0 tb0]|]]; simpl in *; try lia; eauto 10.
Qed.

(** X3: when [status_poller] finishes, it has either called [terminate],
    [join] and [close] on the worker process, or called nothing on it and
    ended with an error: [CancelledError] from a sleep in which its task
    was cancelled, or the error of unpickling the worker's message.  So
    every normal return has cleaned up.  The coroutine never sets a
    terminal signal itself, and the only change it makes to the event
    handler is to set [launch_done], which it does only when it returns
    normally, cleaned up, after having seen the worker's exit. *)
Theorem status_poller_exit_discipline (fuel now : nat) (wk : worker)
    (handler_at : nat → EventHandler) (cancelled_at : nat → bool) (st : poll_state) :
  status_poller fuel now wk handler_at cancelled_at = Some st →
  now ≤ poll_ticks st ≤ now + fuel
  ∧ (poll_calls st = [terminate; join; close]
     ∨ (poll_calls st = []
        ∧ ((poll_result st = Raised CancelledError ∧ cancelled_at (poll_ticks st) = true)
           ∨ (∃ err, poll_result st = Raised err
                     ∧ head (_pconn (process_at wk (poll_ticks st))) = Some (Raised err)))))
  ∧ is_terminal (poll_handler st) = is_terminal (handler_at (poll_ticks st))
  ∧ (poll_handler st = handler_at (poll_ticks st)
     ∨ (poll_handler st = set_launch_done (handler_at (poll_ticks st))
        ∧ poll_result st = Returned tt
        ∧ poll_calls st = [terminate; join; close]
        ∧ exitcode wk (poll_ticks st) ≠ None)).
Proof.
  assert (∀ now', exitcode wk now' ≠ None →
            let st := status_poller_exit (process_at wk now') (handler_at now') now' in
            (poll_calls st = [terminate; join; close]
             ∨ (poll_calls st = []
                ∧ ((poll_result st = Raised CancelledError
                    ∧ cancelled_at (poll_ticks st) = true)
                   ∨ (∃ err, poll_result st = Raised err
                             ∧ head (_pconn (process_at wk (poll_ticks st)))
                               = Some (Raised err)))))
            ∧ is_terminal (poll_handler st) = is_terminal (handler_at (poll_ticks st))
            ∧ (poll_handler st = handler_at (poll_ticks st)
               ∨ (poll_handler st = set_launch_done (handler_at (poll_ticks st))
                  ∧ poll_result st = Returned tt
                  ∧ poll_calls st = [terminate; join; close]
                  ∧ exitcode wk (poll_ticks st) ≠ None))) as Hexit_ok.
  { intros now' Hexit. cbv zeta. rewrite status_poller_exit_ticks.
    destruct (status_poller_exit_cases (process_at wk now') (handler_at now') now'
                (process_at_pipe wk now'))
      as [[Hc [Hh|[Hh Hres]]]|(Hc & Hh & err & Hres & Hhead)].
    - split; [by left|]. rewrite Hh. split; [done|]. by left.
    - split; [by left|]. rewrite Hh. split; [done|]. by right.
    - split; [right; split; [done|]; right; eauto|]. rewrite Hh. split; [done|]. by left. }
  revert now. induction fuel as [|fuel IH]; intros now Hst.
  - simpl in Hst. destruct (exitcode wk now) as [z|] eqn:Hexit; [|done].
    injection Hst as <-. split; [rewrite status_poller_exit_ticks; lia|].
    apply Hexit_ok. by rewrite Hexit.
  - simpl in Hst. destruct (exitcode wk now) as [z|] eqn:Hexit.
    + injection Hst as <-. split; [rewrite status_poller_exit_ticks; lia|].
      apply Hexit_ok. by rewrite Hexit.
    + destruct (cancelled_at (S now)) eqn:Hcancel.
      { injection Hst as <-. simpl. split; [lia|].
        split; [right; split; [done|]; by left|]. split; [done|]. by left. }
      destruct (is_terminal (handler_at (S now))) eqn:Hterm.
      * injection Hst as <-. simpl. split; [lia|]. split; [by left|]. split; [done|]. by left.
      * destruct (IH (S now) Hst) as (Ht & H). split; [lia | exact H].
Qed.

Lemma status_poller_exit_discipline_witness :
  ∃ st, status_poller 9 0 runs_forever (fun _ => EventHandler_new)
          (fun k => Nat.eqb k 3) = Some st
        ∧ poll_ticks st = 3
        ∧ poll_calls st = []
        ∧ is_terminal (poll_handler st) = false.
Proof.
  eexists. split; [reflexivity|].
  destruct (status_poller_exit_discipline 9 0 runs_forever (fun _ => EventHandler_new)
              (fun k => Nat.eqb k 3) _ eq_refl) as (_ & _ & Hterm & _).
  split; [reflexivity|]. split; [reflexivity | exact Hterm].
Defined.



(** ** How controllers change over time *)

Lemma handler_le_refl (eh : EventHandler) : handler_le eh eh.
Proof. by repeat split. Qed.

Lemma handler_le_trans (eh1 eh2 eh3 : EventHandler) :
  handler_le eh1 eh2 → handler_le eh2 eh3 → handler_le eh1 eh3.
Proof. intros (A1 & A2 & A3 & A4) (B1 & B2 & B3 & B4). repeat split; auto. Qed.

Lemma handler_le_set_signal (s : signal_name) (eh : EventHandler) :
  handler_le eh (set_signal s eh).
Proof. destruct s; repeat split; simpl; auto. Qed.

Lemma ctrl_evolves_refl (c : SkyTaskFuture) : ctrl_evolves c c.
Proof. repeat split. intros eh Heh. exists eh. split; [done | apply handler_le_refl]. Qed.

Lemma ctrl_evolves_trans (c1 c2 c3 : SkyTaskFuture) :
  ctrl_evolves c1 c2 → ctrl_evolves c2 c3 → ctrl_evolves c1 c3.
Proof.
  intros (A1 & A2 & A3 & A4 & A5) (B1 & B2 & B3 & B4 & B5).
  repeat split; try congruence.
  intros eh Heh. destruct (A5 eh Heh) as (eh2 & Heh2 & Hle2).
  destruct (B5 eh2 Heh2) as (eh3 & Heh3 & Hle3).
  exists eh3. split; [done|]. by eapply handler_le_trans.
Qed.

Lemma ctrl_evolves_with_handler (c : SkyTaskFuture) (eh eh' : EventHandler) :
  _event_handler c = Some eh → handler_le eh eh' → ctrl_evolves c (with_handler eh' c).
Proof.
  intros Heh Hle. repeat split. intros eh0 Heh0. exists eh'. split; [done|]. congruence.
Qed.

Lemma ctrl_evolves_with_status (st : TaskStatus) (c : SkyTaskFuture) :
  ctrl_evolves c (with_status st c).
Proof. repeat split. intros eh Heh. exists eh. split; [done | apply handler_le_refl]. Qed.

Lemma ctrl_evolves_started_by (callback : option Callback) (c : SkyTaskFuture) :
  _event_handler c = None → ctrl_evolves c (started_by callback c).
Proof. intros Hnone. repeat split. intros eh Heh. congruence. Qed.

Lemma heap_evolves_refl (w : world) : heap_evolves w w.
Proof. intros a c Ha. exists c. split; [done | apply ctrl_evolves_refl]. Qed.

Lemma heap_evolves_trans (w1 w2 w3 : world) :
  heap_evolves w1 w2 → heap_evolves w2 w3 → heap_evolves w1 w3.
Proof.
  intros H12 H23 a c Ha. destruct (H12 a c Ha) as (c2 & Ha2 & He2).
  destruct (H23 a c2 Ha2) as (c3 & Ha3 & He3).
  exists c3. split; [done|]. by eapply ctrl_evolves_trans.
Qed.

Lemma heap_evolves_same (w w' : world) : heap w' = heap w → heap_evolves w w'.
Proof. intros Hh a c Ha. exists c. rewrite Hh. split; [done | apply ctrl_evolves_refl]. Qed.

Lemma heap_evolves_store_object (a : addr) (c c' : SkyTaskFuture) (w : world) :
  heap w !! a = Some c → ctrl_evolves c c' → heap_evolves w (store_object a c' w).
Proof.
  intros Ha Hev b x Hb. simpl. destruct (decide (a = b)) as [->|Hne].
  - assert (Some x = Some c) as [= ->] by exact (eq_trans (eq_sym Hb) Ha).
    exists c'. split; [|done].
    apply list_lookup_insert_eq. by eapply lookup_lt_Some.
  - exists x. split; [by rewrite list_lookup_insert_ne | apply ctrl_evolves_refl].
Qed.

Lemma heap_evolves_alloc (c : SkyTaskFuture) (w : world) : heap_evolves w (alloc c w).2.
Proof.
  intros a x Ha. exists x. simpl.
  split; [by apply lookup_app_l_Some | apply ctrl_evolves_refl].
Qed.

Lemma heap_evolves_signal (s : signal_name) (a : addr) (w : world) :
  heap_evolves w (signal (set_signal s) a w).1.
Proof.
  unfold signal. destruct (heap w !! a) as [self|] eqn:Ha; [|apply heap_evolves_refl].
  destruct (_event_handler self) as [eh|] eqn:Heh; [|apply heap_evolves_refl].
  simpl. apply (heap_evolves_store_object a self); [done|].
  apply (ctrl_evolves_with_handler self eh); [done | apply handler_le_set_signal].
Qed.

Lemma heap_evolves_launch_failed_callback_try (a : addr) (task : task_result)
    (cause : string) (cancel_on_done : bool) (w : world) :
  heap_evolves w (launch_failed_callback_try a task cause cancel_on_done w).1.1.
Proof.
  unfold launch_failed_callback_try. destruct task as [|error|].
  - destruct cancel_on_done; [|apply heap_evolves_refl].
    pose proof (heap_evolves_signal sig_finished a w) as H. simpl in H.
    by destruct (signal set_finished a w).
  - match goal with |- context [signal set_failed a ?w'] =>
      pose proof (heap_evolves_signal sig_failed a w') as H; simpl in H;
      destruct (signal set_failed a w')
    end.
    simpl in *. eapply heap_evolves_trans; [|exact H]. by apply heap_evolves_same.
  - pose proof (heap_evolves_signal sig_cancel a w) as H. simpl in H.
    by destruct (signal set_cancel a w).
Qed.

Lemma heap_evolves_launch_failed_callback_finally (E : SkyEnv) (a : addr) (cause : string)
    (error_cause : option string) (pending : option exn) (w : world) :
  heap_evolves w (launch_failed_callback_finally E a cause error_cause pending w).1.
Proof.
  unfold launch_failed_callback_finally.
  match goal with |- context [emit ?e w] => set (w2 := emit e w) in * end.
  assert (heap_evolves w w2) as H2 by (by apply heap_evolves_same).
  destruct (heap w2 !! a) as [self|] eqn:Ha; [|done].
  destruct (decide (_task_status self = INIT)); [|done].
  destruct (_event_handler self) as [eh|]; [|done].
  destruct (is_terminal eh); [|done].
  assert (heap_evolves w (store_object a (with_status DONE self) w2)) as H3.
  { eapply heap_evolves_trans; [exact H2|].
    apply (heap_evolves_store_object a self); [done | apply ctrl_evolves_with_status]. }
  destruct (_cancel_callback self) as [[]|]; [|done].
  match goal with |- context [on_task_deleted E ?d ?w3] =>
    pose proof (heap_on_task_deleted E d w3) as H4; destruct (on_task_deleted E d w3)
  end.
  simpl in *. eapply heap_evolves_trans; [exact H3|]. by apply heap_evolves_same.
Qed.

Lemma heap_evolves_launch_failed_callback (E : SkyEnv) (a : addr) (task : task_result)
    (cause : string) (cancel_on_done : bool) (w : world) :
  heap_evolves w (launch_failed_callback E a task cause cancel_on_done w).1.
Proof.
  unfold launch_failed_callback.
  pose proof (heap_evolves_launch_failed_callback_try a task cause cancel_on_done w) as H1.
  destruct (launch_failed_callback_try a task cause cancel_on_done w) as [[w1 ec] pending].
  eapply heap_evolves_trans; [exact H1|]. apply heap_evolves_launch_failed_callback_finally.
Qed.

Lemma heap_evolves_start_new (a : addr) (callback : option Callback) (w : world)
    (c : SkyTaskFuture) :
  heap w !! a = Some c → _event_handler c = None → heap_evolves w (start a callback w).
Proof.
  intros Ha Hnone. rewrite (start_spec a callback w c Ha).
  intros b x Hb. simpl. destruct (decide (a = b)) as [->|Hne].
  - exists (started_by callback c). split.
    + apply list_lookup_insert_eq. by eapply lookup_lt_Some.
    + assert (Some x = Some c) as [= ->] by exact (eq_trans (eq_sym Hb) Ha).
      by apply ctrl_evolves_started_by.
  - exists x. split; [by rewrite list_lookup_insert_ne | apply ctrl_evolves_refl].
Qed.

Lemma heap_evolves_register_sky_task (E : SkyEnv) (task_template : TaskTemplate) (w : world) :
  heap_evolves w (register_sky_task E task_template w).2.
Proof.
  unfold register_sky_task.
  destruct (try_first_register_frame E task_template w) as (Hh & _ & _).
  set (w1 := try_first_register E task_template w) in *.
  set (new := SkyTaskFuture_init E task_template).
  assert (heap_evolves w (alloc new w1).2) as H2.
  { eapply heap_evolves_trans; [by apply heap_evolves_same | apply heap_evolves_alloc]. }
  assert (heap (alloc new w1).2 !! (alloc new w1).1 = Some new) as Hnew
    by apply lookup_alloc.
  destruct (alloc new w1) as [new_task w2]. simpl in H2, Hnew.
  destruct (SkyTaskTracker_sky_path_setting w2) as [sp|]; [|done].
  match goal with |- context [task_exists sp ?id w2] => destruct (task_exists sp id w2) end.
  - simpl. eapply heap_evolves_trans; [exact H2|]. by apply heap_evolves_same.
  - simpl. eapply heap_evolves_trans; [exact H2|].
    match goal with |- context [touch_task sp ?id w2] => set (w3 := touch_task sp id w2) end.
    eapply heap_evolves_trans; [apply (heap_evolves_same w2 w3); done|].
    eapply heap_evolves_trans;
      [apply (heap_evolves_start_new new_task (Some SkyTaskTracker_on_task_deleted) w3 new);
       done|].
    by apply heap_evolves_same.
Qed.

Lemma heap_evolves_step (E : SkyEnv) (ev : event) (w : world) :
  heap_evolves w (step E ev w).
Proof.
  destruct ev as [tpl|meta now last|a k task|a s|m|m]; simpl.
  - unfold create. pose proof (heap_evolves_register_sky_task E tpl w) as H.
    destruct (register_sky_task E tpl w) as [[task|e] w1]; simpl in *; [|done].
    by destruct (heap w1 !! task).
  - unfold delete. destruct (delete_branch meta w).
    + apply heap_evolves_same.
      by destruct (remote_deletion_world E meta now last w) as [-> | [-> | ->]].
    + apply (heap_evolves_signal sig_cancel).
  - destruct (heap w !! a) as [c|]; [|apply heap_evolves_refl].
    destruct (coro_callback k c) as [cb|]; [|apply heap_evolves_refl].
    apply heap_evolves_launch_failed_callback.
  - apply heap_evolves_signal.
  - by apply heap_evolves_same.
  - by apply heap_evolves_same.
Qed.

Lemma heap_evolves_run (E : SkyEnv) (evs : list event) (w : world) :
  heap_evolves w (run E evs w).
Proof.
  revert w. induction evs as [|ev evs IH]; intros w; [apply heap_evolves_refl|].
  simpl. eapply heap_evolves_trans; [apply heap_evolves_step | apply IH].
Qed.

(** X5: over any run of the agent process, from any state, a controller
    object stays in the heap, what its constructor set (task template,
    path setting, task name, cluster name) never changes, and a signal
    that is set on its event handler stays set. *)
Theorem controller_fields_fixed_signals_sticky (E : SkyEnv) (evs : list event) (w : world)
    (a : addr) (c : SkyTaskFuture) :
  heap w !! a = Some c →
  ∃ c', heap (run E evs w) !! a = Some c'
        ∧ _task_kwargs c' = _task_kwargs c
        ∧ _sky_path_setting c' = _sky_path_setting c
        ∧ _task_name c' = _task_name c
        ∧ _cluster_name c' = _cluster_name c
        ∧ ∀ eh, _event_handler c = Some eh →
                ∃ eh', _event_handler c' = Some eh' ∧ handler_le eh eh'.
Proof. intros Ha. by apply (heap_evolves_run E evs w a c). Qed.

Lemma controller_fields_fixed_signals_sticky_witness :
  let E := example_env stop_succeeds (Returned "RUNNING") in
  let w := run E [ev_create J1; ev_delete meta_J1 0%Z None] initial_world in
  ∃ c', heap (run E [ev_create J2; ev_done 0 launch_coro task_returned] w) !! 0 = Some c'
        ∧ _cluster_name c' = "C2"
        ∧ ∃ eh', _event_handler c' = Some eh' ∧ cancel_event eh' = true.
Proof.
  intros E w.
  destruct (controller_fields_fixed_signals_sticky E
              [ev_create J2; ev_done 0 launch_coro task_returned] w 0
              (default (SkyTaskFuture_init E J1) (heap w !! 0)))
    as (c' & Hc' & _ & _ & _ & Hcl & Hh); [reflexivity|].
  exists c'. split; [exact Hc'|]. split; [exact Hcl|].
  destruct (Hh (set_cancel EventHandler_new) eq_refl) as (eh' & Heh' & _ & _ & Hcancel & _).
  exists eh'. split; [exact Heh' | exact (Hcancel eq_refl)].
Defined.

(** ** What leaves the tracker's class attributes alone *)

Lemma same_tracker_refl (w : world) : same_tracker w w.
Proof. done. Qed.

Lemma same_tracker_trans (w1 w2 w3 : world) :
  same_tracker w1 w2 → same_tracker w2 w3 → same_tracker w1 w3.
Proof. intros [A1 A2] [B1 B2]. split; congruence. Qed.

Lemma same_tracker_signal (f : EventHandler → EventHandler) (a : addr) (w : world) :
  same_tracker w (signal f a w).1.
Proof.
  unfold signal. destruct (heap w !! a) as [self|]; [|done].
  by destruct (_event_handler self).
Qed.

Lemma same_tracker_on_task_deleted (E : SkyEnv) (deleted_task : SkyTaskFuture) (w : world) :
  same_tracker w (on_task_deleted E deleted_task w).1.
Proof.
  unfold on_task_deleted.
  destruct (filter _ (registry_values w)) as [|c l].
  - destruct (sky_stop E _ _) as [[]|]; simpl;
      by destruct (SkyTaskTracker_sky_path_setting w).
  - by destruct (SkyTaskTracker_sky_path_setting w).
Qed.

Lemma same_tracker_launch_failed_callback_try (a : addr) (task : task_result)
    (cause : string) (cancel_on_done : bool) (w : world) :
  same_tracker w (launch_failed_callback_try a task cause cancel_on_done w).1.1.
Proof.
  unfold launch_failed_callback_try. destruct task as [|error|].
  - destruct cancel_on_done; [|done].
    pose proof (same_tracker_signal set_finished a w) as H.
    by destruct (signal set_finished a w).
  - match goal with |- context [signal set_failed a ?w'] =>
      pose proof (same_tracker_signal set_failed a w') as H; destruct (signal set_failed a w')
    end.
    done.
  - pose proof (same_tracker_signal set_cancel a w) as H.
    by destruct (signal set_cancel a w).
Qed.

Lemma same_tracker_launch_failed_callback_finally (E : SkyEnv) (a : addr) (cause : string)
    (error_cause : option string) (pending : option exn) (w : world) :
  same_tracker w (launch_failed_callback_finally E a cause error_cause pending w).1.
Proof.
  unfold launch_failed_callback_finally.
  match goal with |- context [emit ?e w] => set (w2 := emit e w) in * end.
  destruct (heap w2 !! a) as [self|]; [|done].
  destruct (decide (_task_status self = INIT)); [|done].
  destruct (_event_handler self) as [eh|]; [|done].
  destruct (is_terminal eh); [|done].
  destruct (_cancel_callback self) as [[]|]; [|done].
  match goal with |- context [on_task_deleted E ?d ?w3] =>
    pose proof (same_tracker_on_task_deleted E d w3) as H; destruct (on_task_deleted E d w3)
  end.
  done.
Qed.

Lemma same_tracker_launch_failed_callback (E : SkyEnv) (a : addr) (task : task_result)
    (cause : string) (cancel_on_done : bool) (w : world) :
  same_tracker w (launch_failed_callback E a task cause cancel_on_done w).1.
Proof.
  unfold launch_failed_callback.
  pose proof (same_tracker_launch_failed_callback_try a task cause cancel_on_done w) as H1.
  destruct (launch_failed_callback_try a task cause cancel_on_done w) as [[w1 ec] pending].
  eapply same_tracker_trans; [exact H1|]. apply same_tracker_launch_failed_callback_finally.
Qed.

Lemma same_tracker_delete (E : SkyEnv) (resource_meta : SkyPilotMetadata) (utc_time : Z)
    (last_upload_time : option Z) (w : world) :
  same_tracker w (delete E resource_meta utc_time last_upload_time w).1.
Proof.
  unfold delete. destruct (delete_branch resource_meta w).
  - by destruct (remote_deletion_world E resource_meta utc_time last_upload_time w)
      as [-> | [-> | ->]].
  - apply same_tracker_signal.
Qed.

(** Every step but a Create leaves the registry table and the registry's
    path setting as they are. *)
Lemma same_tracker_step (E : SkyEnv) (ev : event) (w : world) :
  (∀ task_template, ev ≠ ev_create task_template) → same_tracker w (step E ev w).
Proof.
  intros Hev. destruct ev as [tpl|meta now last|a k task|a s|m|m]; simpl.
  - by destruct (Hev tpl).
  - apply same_tracker_delete.
  - destruct (heap w !! a) as [c|]; [|done].
    destruct (coro_callback k c) as [cb|]; [|done].
    apply same_tracker_launch_failed_callback.
  - apply same_tracker_signal.
  - done.
  - done.
Qed.

(** What [register_sky_task] does to the table: nothing, or one insertion
    of the new controller under its task name. *)
Lemma registry_register_sky_task (E : SkyEnv) (task_template : TaskTemplate) (w : world) :
  let res := register_sky_task E task_template w in
  _JOB_RESIGTRY res.2 = _JOB_RESIGTRY w
  ∨ (_JOB_RESIGTRY res.2
     = <[_task_name (SkyTaskFuture_init E task_template) := length (heap w)]> (_JOB_RESIGTRY w)
     ∧ ∃ eh, heap res.2 !! length (heap w)
             = Some (started_by (Some SkyTaskTracker_on_task_deleted)
                       (SkyTaskFuture_init E task_template))
             ∧ _event_handler (started_by (Some SkyTaskTracker_on_task_deleted)
                                  (SkyTaskFuture_init E task_template)) = Some eh).
Proof.
  unfold register_sky_task.
  destruct (try_first_register_frame E task_template w) as (Hh & Hr & _).
  set (w1 := try_first_register E task_template w) in *.
  set (new := SkyTaskFuture_init E task_template).
  cbn -[SkyTaskFuture_init try_first_register start touch_task]. fold new.
  destruct (SkyTaskTracker_sky_path_setting w1) as [sp|]; [|by left].
  match goal with |- context [task_exists sp ?id ?w2] => destruct (task_exists sp id w2) end.
  - by left.
  - right. cbn -[SkyTaskFuture_init try_first_register start touch_task]. fold new.
    erewrite start_spec; cycle 1.
    { cbn -[SkyTaskFuture_init]. rewrite lookup_app_r by lia. by rewrite Nat.sub_diag. }
    cbn -[SkyTaskFuture_init]. fold new. rewrite Hh, Hr. split; [done|].
    eexists. split; [|reflexivity].
    apply list_lookup_insert_eq. rewrite length_app. simpl. lia.
Qed.

Lemma registry_create (E : SkyEnv) (task_template : TaskTemplate) (w : world) :
  _JOB_RESIGTRY (create E task_template w).2
  = _JOB_RESIGTRY (register_sky_task E task_template w).2
  ∧ heap (create E task_template w).2 = heap (register_sky_task E task_template w).2
  ∧ trace (create E task_template w).2 = trace (register_sky_task E task_template w).2
  ∧ SkyTaskTracker_sky_path_setting (create E task_template w).2
    = SkyTaskTracker_sky_path_setting (register_sky_task E task_template w).2.
Proof.
  unfold create. destruct (register_sky_task E task_template w) as [[task|e] w1]; [|done].
  by destruct (heap w1 !! task).
Qed.

Lemma registry_keys_step (E : SkyEnv) (ev : event) (w : world) (n : string) :
  is_Some (_JOB_RESIGTRY w !! n) → is_Some (_JOB_RESIGTRY (step E ev w) !! n).
Proof.
  intros Hn.
  assert ((∃ tpl, ev = ev_create tpl) ∨ ∀ tpl, ev ≠ ev_create tpl) as [[tpl ->]|Hno]
    by (destruct ev; eauto).
  - simpl. destruct (registry_create E tpl w) as (-> & _).
    destruct (registry_register_sky_task E tpl w) as [->|[-> _]]; [done|].
    apply lookup_insert_is_Some. destruct (decide (_task_name (SkyTaskFuture_init E tpl) = n));
      [by left | by right].
  - by destruct (same_tracker_step E ev w Hno) as [-> _].
Qed.

(** X6: the registry table only grows: a task name that is indexed stays
    indexed over every run of the agent process, whatever happens to its
    controller (no step, not even teardown, removes an entry). *)
Theorem registry_entries_are_never_removed (E : SkyEnv) (evs : list event) (w : world)
    (n : string) :
  is_Some (_JOB_RESIGTRY w !! n) → is_Some (_JOB_RESIGTRY (run E evs w) !! n).
Proof.
  revert w. induction evs as [|ev evs IH]; intros w Hn; [done|].
  simpl. apply IH. by apply registry_keys_step.
Qed.

Lemma registry_entries_are_never_removed_witness :
  let E := example_env stop_succeeds (Returned "RUNNING") in
  is_Some (_JOB_RESIGTRY (run E [ev_delete meta_J1 0%Z None;
                                 ev_done 0 status_check_coro task_returned;
                                 ev_done 0 launch_coro task_returned;
                                 ev_done 0 status_upload_coro task_returned]
                            (run E [ev_create J1] initial_world)) !! "J1").
Proof.
  intros E. apply (registry_entries_are_never_removed E). by eexists.
Defined.

(** ** The zip-and-upload task *)

Lemma zips_app (l l' : list effect) : zips (l ++ l') = zips l + zips l'.
Proof. unfold zips. by rewrite filter_app, length_app. Qed.

Lemma zips_snoc (l : list effect) (e : effect) :
  is_zip_task e = false → zips (l ++ [e]) = zips l.
Proof.
  intros He. rewrite zips_app. unfold zips at 2.
  rewrite filter_cons_False by (by rewrite He). simpl. lia.
Qed.

Lemma zips_signal (f : EventHandler → EventHandler) (a : addr) (w : world) :
  zips (trace (signal f a w).1) = zips (trace w).
Proof. by rewrite trace_signal. Qed.

Lemma zips_on_task_deleted (E : SkyEnv) (deleted_task : SkyTaskFuture) (w : world) :
  zips (trace (on_task_deleted E deleted_task w).1) = zips (trace w).
Proof.
  unfold on_task_deleted.
  destruct (filter _ (registry_values w)) as [|c l].
  - destruct (sky_stop E _ _) as [[]|]; simpl;
      destruct (SkyTaskTracker_sky_path_setting w); simpl; by rewrite !zips_snoc.
  - destruct (SkyTaskTracker_sky_path_setting w); simpl; by rewrite ?zips_snoc.
Qed.

Lemma zips_launch_failed_callback_try (a : addr) (task : task_result) (cause : string)
    (cancel_on_done : bool) (w : world) :
  zips (trace (launch_failed_callback_try a task cause cancel_on_done w).1.1) = zips (trace w).
Proof.
  unfold launch_failed_callback_try. destruct task as [|error|].
  - destruct cancel_on_done; [|done].
    pose proof (zips_signal set_finished a w) as H. by destruct (signal set_finished a w).
  - match goal with |- context [signal set_failed a ?w'] =>
      pose proof (zips_signal set_failed a w') as H; destruct (signal set_failed a w')
    end.
    simpl in *. rewrite H. by rewrite !zips_snoc.
  - pose proof (zips_signal set_cancel a w) as H. by destruct (signal set_cancel a w).
Qed.

Lemma zips_launch_failed_callback_finally (E : SkyEnv) (a : addr) (cause : string)
    (error_cause : option string) (pending : option exn) (w : world) :
  zips (trace (launch_failed_callback_finally E a cause error_cause pending w).1)
  = zips (trace w).
Proof.
  unfold launch_failed_callback_finally.
  match goal with |- context [emit ?e w] =>
    assert (zips (trace (emit e w)) = zips (trace w)) as H2 by (simpl; by rewrite zips_snoc);
    set (w2 := emit e w) in *
  end.
  destruct (heap w2 !! a) as [self|]; [|done].
  destruct (decide (_task_status self = INIT)); [|done].
  destruct (_event_handler self) as [eh|]; [|done].
  destruct (is_terminal eh); [|done].
  destruct (_cancel_callback self) as [[]|]; [|done].
  match goal with |- context [on_task_deleted E ?d ?w3] =>
    pose proof (zips_on_task_deleted E d w3) as H3; destruct (on_task_deleted E d w3)
  end.
  simpl in *. rewrite H3. by rewrite zips_snoc.
Qed.

Lemma zips_launch_failed_callback (E : SkyEnv) (a : addr) (task : task_result)
    (cause : string) (cancel_on_done : bool) (w : world) :
  zips (trace (launch_failed_callback E a task cause cancel_on_done w).1) = zips (trace w).
Proof.
  unfold launch_failed_callback.
  pose proof (zips_launch_failed_callback_try a task cause cancel_on_done w) as H1.
  destruct (launch_failed_callback_try a task cause cancel_on_done w) as [[w1 ec] pending].
  simpl in H1. rewrite <- H1. apply zips_launch_failed_callback_finally.
Qed.

Lemma zips_step_not_create (E : SkyEnv) (ev : event) (w : world) :
  (∀ task_template, ev ≠ ev_create task_template) →
  zips (trace (step E ev w)) = zips (trace w).
Proof.
  intros Hev. destruct ev as [tpl|meta now last|a k task|a s|m|m]; simpl; try done.
  - by destruct (Hev tpl).
  - unfold delete. destruct (delete_branch meta w).
    + destruct (remote_deletion_world E meta now last w) as [-> | [-> | ->]];
        simpl; by rewrite !zips_snoc.
    + apply zips_signal.
  - destruct (heap w !! a) as [c|]; [|done].
    destruct (coro_callback k c) as [cb|]; [|done].
    apply zips_launch_failed_callback.
  - apply zips_signal.
Qed.

(** With a non-empty table, [register_sky_task] skips the first-time set-up:
    same path setting, no new zip task, and the table stays non-empty. *)
Lemma register_sky_task_nonempty (E : SkyEnv) (task_template : TaskTemplate) (w : world) :
  _JOB_RESIGTRY w ≠ ∅ →
  let w' := (register_sky_task E task_template w).2 in
  _JOB_RESIGTRY w' ≠ ∅
  ∧ SkyTaskTracker_sky_path_setting w' = SkyTaskTracker_sky_path_setting w
  ∧ zips (trace w') = zips (trace w).
Proof.
  intros Hne. unfold register_sky_task.
  assert (try_first_register E task_template w = w) as ->.
  { rewrite try_first_register_eq. by rewrite decide_False. }
  cbn -[SkyTaskFuture_init start touch_task zips].
  destruct (SkyTaskTracker_sky_path_setting w) as [sp|] eqn:Hsp; [|done].
  match goal with |- context [task_exists sp ?id ?w2] => destruct (task_exists sp id w2) end.
  - cbn -[SkyTaskFuture_init zips]. split; [done|]. split; [done|]. by rewrite zips_snoc.
  - cbn -[SkyTaskFuture_init start touch_task zips].
    erewrite start_spec; cycle 1.
    { cbn -[SkyTaskFuture_init]. rewrite lookup_app_r by lia. by rewrite Nat.sub_diag. }
    cbn -[SkyTaskFuture_init zips].
    split; [apply insert_non_empty|]. split; [done|].
    rewrite zips_app, zips_snoc by done. unfold zips at 2.
    rewrite !filter_cons_False by done. simpl. lia.
Qed.

Lemma tracker_settled_step (E : SkyEnv) (ev : event) (w : world) :
  _JOB_RESIGTRY w ≠ ∅ →
  _JOB_RESIGTRY (step E ev w) ≠ ∅
  ∧ SkyTaskTracker_sky_path_setting (step E ev w) = SkyTaskTracker_sky_path_setting w
  ∧ zips (trace (step E ev w)) = zips (trace w).
Proof.
  intros Hne.
  assert ((∃ tpl, ev = ev_create tpl) ∨ ∀ tpl, ev ≠ ev_create tpl) as [[tpl ->]|Hno]
    by (destruct ev; eauto).
  - simpl. destruct (registry_create E tpl w) as (-> & _ & -> & ->).
    by apply register_sky_task_nonempty.
  - destruct (same_tracker_step E ev w Hno) as [-> ->].
    split; [done|]. split; [done|]. by apply zips_step_not_create.
Qed.

(** X7: once the registry table is non-empty, the first-time set-up never
    runs again: over every later run the registry's path setting (built
    from the first registered task's output prefix) stays the same, no
    further zip-and-upload task is created, and the table stays
    non-empty. *)
Theorem first_registration_settles_tracker (E : SkyEnv) (evs : list event) (w : world) :
  _JOB_RESIGTRY w ≠ ∅ →
  _JOB_RESIGTRY (run E evs w) ≠ ∅
  ∧ SkyTaskTracker_sky_path_setting (run E evs w) = SkyTaskTracker_sky_path_setting w
  ∧ zips (trace (run E evs w)) = zips (trace w).
Proof.
  revert w. induction evs as [|ev evs IH]; intros w Hne; [done|].
  simpl. destruct (tracker_settled_step E ev w Hne) as (Hne' & <- & <-).
  by apply IH.
Qed.

Lemma first_registration_settles_tracker_witness :
  let E := example_env stop_succeeds (Returned "RUNNING") in
  let other := mkTaskTemplate INTERACTIVE "C9" "J9" ["pyflyte-execute"; "gs://elsewhere"] in
  let w := run E [ev_create J1] initial_world in
  SkyTaskTracker_sky_path_setting (run E [ev_create other; ev_create J2] w)
  = Some (mkSkyPathSetting "s3://bucket/out" "host-0")
  ∧ zips (trace (run E [ev_create other; ev_create J2] w)) = 1.
Proof.
  intros E other w.
  destruct (first_registration_settles_tracker E [ev_create other; ev_create J2] w)
    as (_ & -> & ->).
  - vm_compute. discriminate.
  - split; reflexivity.
Defined.



(** ** Deletion *)

Lemma check_remote_agent_alive_stale (utc_time : Z) (last_upload_time : option Z) :
  check_remote_agent_alive utc_time last_upload_time = false
  ↔ ∃ t, last_upload_time = Some t ∧ (600 * 1000000 < utc_time - t)%Z.
Proof.
  unfold check_remote_agent_alive, total_seconds_gt, CONTROLLER_IDLE_MINUTES_TO_AUTOSTOP.
  destruct last_upload_time as [t|].
  - destruct (Z.ltb_spec (10 * 60 * 1000000) (utc_time - t)) as [Hlt|Hge].
    + split; [|done]. intros _. exists t. split; [done | lia].
    + split; [done|]. intros (t' & [= <-] & Hlt). lia.
  - split; [done|]. by intros (t & [=] & _).
Qed.

(** X9: [remote_deletion] runs the pool call that takes the cluster down
    exactly when the tracker has a heartbeat and it is more than 600
    seconds old; with a fresh heartbeat, and with none at all, the pool
    call is not made.  When the pool call is made and raises,
    [remote_deletion] raises the same error and the deletion record is
    not uploaded.  Otherwise the upload is the last thing it does, and
    how the upload ends is how [remote_deletion] ends.  The agent's own
    state (heap, table, markers) is not touched. *)
Theorem remote_deletion_downs_cluster_iff_stale (E : SkyEnv)
    (resource_meta : SkyPilotMetadata) (utc_time : Z) (last_upload_time : option Z)
    (w : world) :
  let down := pool_sky_down_call (meta_cluster_name resource_meta) in
  let upload := to_proto_and_upload (job_name resource_meta) in
  let res := remote_deletion E resource_meta utc_time last_upload_time w in
  let pool := pool_sky_down E (trace w) resource_meta in
  ∃ l, trace res.1 = trace w ++ l
       ∧ (down ∈ l ↔ ∃ t, last_upload_time = Some t ∧ (600 * 1000000 < utc_time - t)%Z)
       ∧ (∀ e, down ∈ l → pool = Some e → res.2 = Some e ∧ l = [down])
       ∧ ((down ∉ l) ∨ pool = None →
          last l = Some upload
          ∧ res.2 = upload_delete_proto E (trace w ++ removelast l) resource_meta)
       ∧ heap res.1 = heap w
       ∧ _JOB_RESIGTRY res.1 = _JOB_RESIGTRY w
       ∧ object_store res.1 = object_store w.
Proof.
  simpl. unfold remote_deletion, remote_deletion_upload.
  setoid_rewrite <- check_remote_agent_alive_stale.
  destruct (check_remote_agent_alive utc_time last_upload_time); simpl.
  - exists [to_proto_and_upload (job_name resource_meta)]. split; [done|].
    assert (pool_sky_down_call (meta_cluster_name resource_meta)
            ∉ [to_proto_and_upload (job_name resource_meta)]) as Hnot.
    { intros Hin. apply list_elem_of_singleton in Hin. discriminate. }
    split; [split; [by intros ?%Hnot | done]|].
    split; [by intros e ?%Hnot|].
    split; [|done]. intros _. by rewrite app_nil_r.
  - destruct (pool_sky_down E (trace w) resource_meta) as [e|] eqn:Hdown; simpl.
    + exists [pool_sky_down_call (meta_cluster_name resource_meta)].
      split; [done|]. split; [split; [done|]; intros _; apply list_elem_of_here|].
      split; [by intros e' _ [= <-]|].
      split; [|done]. intros [Hnot|?]; [|done]. destruct Hnot. apply list_elem_of_here.
    + exists [pool_sky_down_call (meta_cluster_name resource_meta);
              to_proto_and_upload (job_name resource_meta)].
      split; [by rewrite <- app_assoc|].
      split; [split; [done|]; intros _; apply list_elem_of_here|].
      split; [by intros e' _ ?|]. done.
Qed.

(** X10: [cancel] on a controller on which [start] has not run, such as
    the one [register_sky_task] returns when it finds the marker, raises
    [AttributeError] (there is no event handler) and changes nothing. *)
Theorem cancel_of_unstarted_controller_raises (E : SkyEnv) (task_template : TaskTemplate)
    (w : world) (sp : SkyPathSetting) :
  SkyTaskTracker_sky_path_setting (try_first_register E task_template w) = Some sp →
  task_exists sp (unique_id E (_sky_path_setting (SkyTaskFuture_init E task_template))) w
  = true →
  ∃ a w', register_sky_task E task_template w = (Returned a, w')
          ∧ cancel a w' = (w', Some AttributeError).
Proof.
  intros Hsp Hex.
  rewrite (register_sky_task_exists E task_template w sp Hsp Hex).
  eexists _, _. split; [reflexivity|].
  unfold cancel, signal. cbn [heap].
  rewrite lookup_app_r by lia. rewrite Nat.sub_diag. reflexivity.
Qed.

Lemma cancel_of_unstarted_controller_raises_witness :
  let E := example_env stop_succeeds (Returned "RUNNING") in
  let w := run E [ev_create J1] initial_world in
  ∃ a w', register_sky_task E J1 w = (Returned a, w')
          ∧ cancel a w' = (w', Some AttributeError).
Proof.
  intros E w.
  apply (cancel_of_unstarted_controller_raises E J1 w
           (mkSkyPathSetting "s3://bucket/out" "host-0")).
  - reflexivity.
  - reflexivity.
Defined.

(** X11: a Create that finds no marker, followed by a Delete with the
    metadata that Create returned, cancels exactly the controller that
    Create started: Delete takes the in-process path, raises nothing, sets
    the [cancel] signal of that controller and does nothing else. *)
Theorem create_then_delete_cancels_created (E : SkyEnv) (task_template : TaskTemplate)
    (w : world) (sp : SkyPathSetting) (utc_time : Z) (last_upload_time : option Z) :
  let new := SkyTaskFuture_init E task_template in
  let a := length (heap w) in
  SkyTaskTracker_sky_path_setting (try_first_register E task_template w) = Some sp →
  task_exists sp (unique_id E (_sky_path_setting new)) w = false →
  ∃ resource_meta w1,
    create E task_template w = (Returned resource_meta, w1)
    ∧ job_name resource_meta = _task_name new
    ∧ meta_cluster_name resource_meta = _cluster_name new
    ∧ launches (trace w1) = launches (trace w) + 1
    ∧ delete_branch resource_meta w1 = cancel_path a
    ∧ delete E resource_meta utc_time last_upload_time w1
      = (store_object a
           (with_handler (set_cancel EventHandler_new)
              (started_by (Some SkyTaskTracker_on_task_deleted) new)) w1,
         None).
Proof.
  intros new a Hsp Hex. unfold create.
  rewrite (register_sky_task_fresh E task_template w sp Hsp Hex). fold new. fold a.
  cbn [heap].
  assert ((heap w ++ [started_by (Some SkyTaskTracker_on_task_deleted) new]) !! (a : addr)
          = Some (started_by (Some SkyTaskTracker_on_task_deleted) new)) as Hlook.
  { rewrite lookup_app_r by (unfold a; lia). unfold a. by rewrite Nat.sub_diag. }
  rewrite Hlook.
  eexists _, _. split; [reflexivity|]. cbn [job_name meta_cluster_name trace].
  split; [done|]. split; [done|].
  split.
  { destruct (touches_try_first_register E task_template w (marker_of sp "")) as [_ Hl].
    rewrite launches_app, Hl. unfold launches at 2.
    rewrite filter_cons_False by done. rewrite filter_cons_True by done.
    rewrite !filter_cons_False by done. simpl. lia. }
  assert (∀ w1 : world,
            _JOB_RESIGTRY w1 = <[_task_name new := a]> (_JOB_RESIGTRY w) →
            ∀ meta, job_name meta = _task_name new → delete_branch meta w1 = cancel_path a)
    as Hbranch.
  { intros w1 Hreg meta Hname. unfold delete_branch.
    by rewrite Hreg, Hname, lookup_insert_eq. }
  split; [by apply Hbranch|].
  unfold delete. erewrite Hbranch; [|reflexivity|reflexivity].
  unfold cancel, signal. cbn [heap]. rewrite Hlook. reflexivity.
Qed.

Lemma create_then_delete_cancels_created_witness :
  let E := example_env stop_succeeds (Returned "RUNNING") in
  ∃ resource_meta w1,
    create E J1 initial_world = (Returned resource_meta, w1)
    ∧ delete_branch resource_meta w1 = cancel_path 0.
Proof.
  intros E.
  destruct (create_then_delete_cancels_created E J1 initial_world
              (mkSkyPathSetting "s3://bucket/out" "host-0") 0%Z None)
    as (meta & w1 & Hcreate & _ & _ & _ & Hbranch & _).
  - reflexivity.
  - reflexivity.
  - exists meta, w1. split; [exact Hcreate | exact Hbranch].
Defined.

(** ** Done-callbacks *)

(** X12: the launch poller ending normally is not a terminal event: when
    no terminal signal is set, its done-callback only writes a log line.
    Status, signals, table and markers stay as they are and the teardown
    callback is not called. *)
Theorem launch_completion_is_not_terminal (E : SkyEnv) (a : addr) (w : world)
    (c : SkyTaskFuture) (eh : EventHandler) :
  heap w !! a = Some c →
  _launch_coro c = Some (mkDoneCallback "launch" false) →
  _event_handler c = Some eh →
  is_terminal eh = false →
  step E (ev_done a launch_coro task_returned) w
  = emit (logger_warning "launch coroutine finished with None.") w.
Proof.
  intros Ha Hl Heh Hterm. simpl. rewrite Ha. simpl. rewrite Hl.
  unfold launch_failed_callback, launch_failed_callback_try, launch_failed_callback_finally.
  cbn [cancel_on_done cause fst snd]. simpl.
  rewrite Ha. rewrite Heh, Hterm. by destruct (decide (_task_status c = INIT)).
Qed.

Lemma launch_completion_is_not_terminal_witness :
  let E := example_env stop_succeeds (Returned "RUNNING") in
  let w := run E [ev_create J1; ev_signal 0 sig_launch_done] initial_world in
  step E (ev_done 0 launch_coro task_returned) w
  = emit (logger_warning "launch coroutine finished with None.") w.
Proof.
  intros E w.
  apply (launch_completion_is_not_terminal E 0 w
           (default (SkyTaskFuture_init E J1) (heap w !! 0))
           (set_launch_done EventHandler_new)).
  - reflexivity.
  - reflexivity.
  - reflexivity.
  - reflexivity.
Defined.

(** X13: when a supervised task of a started controller ends with an
    exception, its done-callback writes the error log for that controller,
    sets the [failed] signal (keeping the signals already set) and leaves
    the controller [DONE]. *)
Theorem failed_task_is_recorded (E : SkyEnv) (a : addr) (k : coro_kind) (error : string)
    (w : world) (c : SkyTaskFuture) (eh : EventHandler) :
  wf w →
  heap w !! a = Some c →
  _event_handler c = Some eh →
  k ≠ zip_coro →
  let w' := step E (ev_done a k (task_raised error)) w in
  (∃ l, trace w' = trace w ++ put_error_log a error :: l)
  ∧ (∃ c' eh', heap w' !! a = Some c' ∧ _event_handler c' = Some eh'
               ∧ failed_event eh' = true ∧ handler_le eh eh')
  ∧ status_at a w' = Some DONE.
Proof.
  intros Hwf Ha Heh Hk w'.
  assert (status_at a w' = Some DONE) as Hdone.
  { apply (step_done_sees_terminal E a k (task_raised error) w eh); try done.
    - unfold handler_of. rewrite Ha. done.
    - unfold sees_terminal. apply orb_true_r. }
  split; [|split; [|done]].
  - subst w'. simpl. rewrite Ha.
    destruct (wf_ctrl w Hwf a c Ha) as [Hstarted _].
    destruct Hstarted as (_ & Hl & Hc & Hu); [by rewrite Heh|].
    assert (∃ cb, coro_callback k c = Some cb) as [cb ->] by (destruct k; simpl; eauto; done).
    unfold launch_failed_callback, launch_failed_callback_try.
    match goal with |- context [signal set_failed a ?w0] =>
      pose proof (trace_signal set_failed a w0) as Hsig; destruct (signal set_failed a w0)
        as [w1 r]
    end.
    match goal with |- context [launch_failed_callback_finally E a ?ca ?ec ?p w1] =>
      destruct (prefix_launch_failed_callback_finally E a ca ec p w1) as [l Hl']
    end.
    rewrite Hl'. simpl in Hsig. rewrite Hsig. simpl.
    eexists. rewrite <- !app_assoc. simpl. reflexivity.
  - subst w'. simpl. rewrite Ha.
    destruct (wf_ctrl w Hwf a c Ha) as [Hstarted _].
    destruct Hstarted as (_ & Hl & Hc & Hu); [by rewrite Heh|].
    assert (∃ cb, coro_callback k c = Some cb) as [cb ->] by (destruct k; simpl; eauto; done).
    unfold launch_failed_callback, launch_failed_callback_try.
    match goal with |- context [signal set_failed a ?w0] =>
      destruct (signal_started set_failed a w0 c eh Ha Heh) as [-> Hlook]; set (w1 := w0)
    end.
    match goal with |- context [launch_failed_callback_finally E a ?ca ?ec ?p ?w2] =>
      destruct (heap_evolves_launch_failed_callback_finally E a ca ec p w2 a _ Hlook)
        as (c' & Hc' & _ & _ & _ & _ & Hh)
    end.
    destruct (Hh (set_failed eh) eq_refl) as (eh' & Heh' & Hle).
    exists c', eh'. split; [done|]. split; [done|]. split.
    + destruct Hle as (_ & Hf & _). by apply Hf.
    + eapply handler_le_trans; [apply (handler_le_set_signal sig_failed)|exact Hle].
Qed.

Lemma failed_task_is_recorded_witness :
  let E := example_env stop_succeeds (Returned "RUNNING") in
  let w := run E [ev_create J1] initial_world in
  status_at 0 (step E (ev_done 0 status_upload_coro (task_raised "Traceback")) w) = Some DONE.
Proof.
  intros E w.
  apply (failed_task_is_recorded E 0 status_upload_coro "Traceback" w
           (default (SkyTaskFuture_init E J1) (heap w !! 0)) EventHandler_new).
  - apply wf_run, wf_initial.
  - reflexivity.
  - reflexivity.
  - discriminate.
Defined.

(** ** Teardown, continued *)

(** In the state in which the teardown callback runs, the controllers the
    scan finds are the other ones. *)
Lemma running_while_tearing_down (a : addr) (c : SkyTaskFuture) (w w0 : world)
    (cluster : string) :
  heap w !! a = Some c →
  heap w0 = <[a := with_status DONE c]> (heap w) →
  _JOB_RESIGTRY w0 = _JOB_RESIGTRY w →
  running_on_cluster w0 cluster ↔ others_running w a cluster.
Proof.
  intros Ha Hh Hr. split.
  - intros (n & b & c0 & Hn & Hc0 & Hst & Hcl). rewrite Hh in Hc0. rewrite Hr in Hn.
    apply list_lookup_insert_Some in Hc0 as [(-> & <- & _)|[Hne Hc0]]; [done|].
    exists n, b, c0. done.
  - intros (n & b & c0 & Hne & Hn & Hc0 & Hst & Hcl). exists n, b, c0.
    rewrite Hh, Hr. split; [done|]. split; [|done].
    by rewrite list_lookup_insert_ne.
Qed.

(** X14: when the controller being torn down is the last one running on
    its cluster and [sky.stop] raises an error other than
    [NotSupportedError], the done-callback raises that error after the
    status is already [DONE] and the teardown callback counted;
    [delete_task] is not reached, so the job's marker stays in the object
    store. *)
Theorem unhandled_stop_error_leaves_marker (E : SkyEnv) (a : addr) (cause : string)
    (error_cause : option string) (pending : option exn) (w : world)
    (c : SkyTaskFuture) (eh : EventHandler) (e : exn) :
  heap w !! a = Some c →
  _task_status c = INIT →
  _event_handler c = Some eh →
  is_terminal eh = true →
  _cancel_callback c = Some SkyTaskTracker_on_task_deleted →
  ¬ others_running w a (_cluster_name c) →
  (∀ tr, sky_stop E tr (_cluster_name c) = Some e) →
  e ≠ NotSupportedError →
  let res := launch_failed_callback_finally E a cause error_cause pending w in
  res.2 = Some e
  ∧ status_at a res.1 = Some DONE
  ∧ teardowns a (trace res.1) = teardowns a (trace w) + 1
  ∧ object_store res.1 = object_store w
  ∧ last (trace res.1) = Some (sky_stop_call (_cluster_name c)).
Proof.
  intros Ha Hst Heh Hterm Hcb Hlast Hstop Hne. simpl.
  unfold launch_failed_callback_finally.
  match goal with |- context [emit ?e0 w] => set (w2 := emit e0 w) in * end.
  assert (heap w2 !! a = Some c) as Ha2 by done.
  rewrite Ha2, Heh, Hterm, Hcb. rewrite decide_True by done.
  set (w3 := emit (cancel_callback_call a) (store_object a (with_status DONE c) w2)).
  assert (¬ running_on_cluster w3 (_cluster_name c)) as Hidle.
  { intros Hrun. apply Hlast.
    by apply (running_while_tearing_down a c w w3). }
  unfold on_task_deleted. cbn [_cluster_name with_status].
  apply running_filter_nil in Hidle. rewrite Hidle. rewrite Hstop.
  assert (status_at a w3 = Some DONE) as Hdone.
  { unfold status_at. simpl.
    rewrite list_lookup_insert_eq by (by eapply lookup_lt_Some). done. }
  assert (teardowns a (trace w3) = teardowns a (trace w) + 1) as Hcount.
  { subst w3 w2. cbn [trace emit store_object]. rewrite !teardowns_app, teardowns_call.
    rewrite teardowns_quiet by done. rewrite decide_True by done.
    by rewrite Nat.add_0_r. }
  destruct e; try done; cbn [fst snd];
    (split; [done|]); (split; [exact Hdone|]);
    (split; [cbn [trace emit]; rewrite !teardowns_app, !teardowns_quiet by done;
             rewrite Hcount; lia|]);
    (split; [done|]); cbn [trace emit]; by rewrite last_snoc.
Qed.

Lemma unhandled_stop_error_leaves_marker_witness :
  let E := example_env (fun _ _ => Some (OtherError "cluster is being provisioned"))
                       (Returned "RUNNING") in
  let w := run E [ev_create J1; ev_signal 0 sig_cancel] initial_world in
  let res := launch_failed_callback_finally E 0 "deletion status" None None w in
  res.2 = Some (OtherError "cluster is being provisioned")
  ∧ object_store res.1 = object_store w.
Proof.
  intros E w res.
  destruct (unhandled_stop_error_leaves_marker E 0 "deletion status" None None w
              (default (SkyTaskFuture_init E J1) (heap w !! 0))
              (set_cancel EventHandler_new) (OtherError "cluster is being provisioned"))
    as (Hres & _ & _ & Hstore & _).
  - reflexivity.
  - reflexivity.
  - reflexivity.
  - reflexivity.
  - reflexivity.
  - intros (n & b & c0 & Hne & Hn & Hc0 & Hst & _).
    assert (_JOB_RESIGTRY w = {["J1" := 0]}) as Hreg by (by vm_compute).
    rewrite Hreg in Hn. apply lookup_singleton_Some in Hn as [_ <-]. done.
  - reflexivity.
  - discriminate.
  - split; [exact Hres | exact Hstore].
Defined.

(** ** What the registry indexes *)

Lemma registry_started_evolves (w w' : world) :
  _JOB_RESIGTRY w' = _JOB_RESIGTRY w → heap_evolves w w' →
  registry_started w → registry_started w'.
Proof.
  intros Hr Hev Hstarted n a Hn. rewrite Hr in Hn.
  destruct (Hstarted n a Hn) as (c & eh & Hc & Heh).
  destruct (Hev a c Hc) as (c' & Hc' & _ & _ & _ & _ & Hh).
  destruct (Hh eh Heh) as (eh' & Heh' & _). by exists c', eh'.
Qed.

Lemma registry_started_step (E : SkyEnv) (ev : event) (w : world) :
  registry_started w → registry_started (step E ev w).
Proof.
  intros Hstarted.
  assert ((∃ tpl, ev = ev_create tpl) ∨ ∀ tpl, ev ≠ ev_create tpl) as [[tpl ->]|Hno]
    by (destruct ev; eauto).
  - pose proof (heap_evolves_step E (ev_create tpl) w) as Hev. simpl in *.
    destruct (registry_create E tpl w) as (Hr & Hh & _).
    destruct (registry_register_sky_task E tpl w) as [Hsame|(Hins & eh & Hnew & Heh)].
    + apply (registry_started_evolves w); [congruence | done | done].
    + intros n a Hn. rewrite Hr, Hins in Hn.
      apply lookup_insert_Some in Hn as [[_ <-]|[_ Hn]].
      * rewrite Hh. eauto.
      * destruct (Hstarted n a Hn) as (c & eh0 & Hc & Heh0).
        destruct (Hev a c Hc) as (c' & Hc' & _ & _ & _ & _ & Hhandler).
        destruct (Hhandler eh0 Heh0) as (eh' & Heh' & _). by exists c', eh'.
  - apply (registry_started_evolves w); [|apply heap_evolves_step|done].
    by destruct (same_tracker_step E ev w Hno).
Qed.

Lemma registry_started_run (E : SkyEnv) (evs : list event) (w : world) :
  registry_started w → registry_started (run E evs w).
Proof.
  revert w. induction evs as [|ev evs IH]; intros w Hw; [done|].
  simpl. apply IH. by apply registry_started_step.
Qed.

Lemma registry_started_initial : registry_started initial_world.
Proof. intros n a Hn. simpl in Hn. by rewrite lookup_empty in Hn. Qed.

(** X15: in every state the agent process can reach, a Delete for a job
    whose name the table indexes does not raise: it sets the [cancel]
    signal on the event handler of the indexed controller and changes
    nothing else (no provisioner call, no log line, no change of status,
    table or markers). *)
Theorem delete_of_indexed_job_sets_cancel (E : SkyEnv) (evs : list event)
    (resource_meta : SkyPilotMetadata) (utc_time : Z) (last_upload_time : option Z)
    (a : addr) :
  let w := run E evs initial_world in
  _JOB_RESIGTRY w !! job_name resource_meta = Some a →
  ∃ c eh, heap w !! a = Some c ∧ _event_handler c = Some eh
          ∧ delete E resource_meta utc_time last_upload_time w
            = (store_object a (with_handler (set_cancel eh) c) w, None).
Proof.
  intros w Hn.
  destruct (registry_started_run E evs initial_world registry_started_initial _ _ Hn)
    as (c & eh & Hc & Heh).
  exists c, eh. split; [done|]. split; [done|].
  unfold delete, delete_branch. fold w. rewrite Hn. unfold cancel.
  by destruct (signal_started set_cancel a w c eh Hc Heh) as [-> _].
Qed.

Lemma delete_of_indexed_job_sets_cancel_witness :
  let E := example_env stop_succeeds (Returned "RUNNING") in
  let w := run E delete_J1 initial_world in
  ∃ c eh, heap w !! 1 = Some c ∧ _event_handler c = Some eh
          ∧ delete E meta_J2 0%Z None w
            = (store_object 1 (with_handler (set_cancel eh) c) w, None).
Proof.
  intros E w.
  apply (delete_of_indexed_job_sets_cancel E delete_J1 meta_J2 0%Z None 1).
  reflexivity.
Defined.

(** ** Registering again after teardown *)

Lemma on_task_deleted_returns (E : SkyEnv) (deleted_task : SkyTaskFuture) (w : world)
    (sp : SkyPathSetting) :
  SkyTaskTracker_sky_path_setting w = Some sp →
  (on_task_deleted E deleted_task w).2 = None →
  object_store (on_task_deleted E deleted_task w).1
  = object_store w ∖ {[marker_of sp (unique_id E (_sky_path_setting deleted_task))]}
  ∧ heap (on_task_deleted E deleted_task w).1 = heap w.
Proof.
  intros Hsp. unfold on_task_deleted.
  destruct (filter _ (registry_values w)) as [|c l].
  - destruct (sky_stop E _ _) as [[]|]; simpl; rewrite ?Hsp; simpl; done.
  - rewrite Hsp. done.
Qed.

(** X16: the marker guards registration only until teardown.  Once the
    teardown of a controller has gone through ([on_task_deleted] returned,
    so [delete_task] removed the marker), registering the same task again
    launches again: a new worker is started and the table now indexes the
    new controller under the task's name. *)
Theorem teardown_reenables_registration (E : SkyEnv) (task_template : TaskTemplate)
    (deleted_task : SkyTaskFuture) (w : world) (sp : SkyPathSetting) :
  let new := SkyTaskFuture_init E task_template in
  let w1 := (on_task_deleted E deleted_task w).1 in
  _JOB_RESIGTRY w ≠ ∅ →
  SkyTaskTracker_sky_path_setting w = Some sp →
  _sky_path_setting deleted_task = _sky_path_setting new →
  (on_task_deleted E deleted_task w).2 = None →
  ∃ w2, register_sky_task E task_template w1 = (Returned (length (heap w)), w2)
        ∧ launches (trace w2) = launches (trace w1) + 1
        ∧ _JOB_RESIGTRY w2 !! _task_name new = Some (length (heap w))
        ∧ heap w2 !! length (heap w)
          = Some (started_by (Some SkyTaskTracker_on_task_deleted) new)
        ∧ marker_of sp (unique_id E (_sky_path_setting new)) ∈ object_store w2.
Proof.
  intros new w1 Hne Hsp Hpath Hret.
  destruct (on_task_deleted_returns E deleted_task w sp Hsp Hret) as [Hstore Hheap].
  destruct (same_tracker_on_task_deleted E deleted_task w) as [Hreg Hset].
  fold w1 in Hstore, Hheap, Hreg, Hset.
  assert (try_first_register E task_template w1 = w1) as Htfr.
  { rewrite try_first_register_eq. rewrite decide_False; [done|]. by rewrite Hreg. }
  assert (SkyTaskTracker_sky_path_setting (try_first_register E task_template w1) = Some sp)
    as Hsp1 by (by rewrite Htfr, Hset).
  assert (task_exists sp (unique_id E (_sky_path_setting new)) w1 = false) as Hex.
  { unfold task_exists. apply bool_decide_eq_false. rewrite Hstore, Hpath.
    rewrite not_elem_of_difference, elem_of_singleton. by right. }
  rewrite (register_sky_task_fresh E task_template w1 sp Hsp1 Hex).
  rewrite Htfr, Hheap. fold new.
  eexists. split; [reflexivity|]. cbn [trace _JOB_RESIGTRY heap object_store].
  split.
  { rewrite launches_app. unfold launches at 2.
    rewrite filter_cons_False by done. rewrite filter_cons_True by done.
    rewrite !filter_cons_False by done. simpl. lia. }
  split; [by rewrite lookup_insert_eq|].
  split.
  { rewrite lookup_app_r by lia. by rewrite Nat.sub_diag. }
  apply elem_of_union_l, elem_of_singleton. done.
Qed.

Lemma teardown_reenables_registration_witness :
  let E := example_env stop_succeeds (Returned "RUNNING") in
  let w := entering_teardown 0 (run E [ev_create J1] initial_world) in
  let deleted_task := default (SkyTaskFuture_init E J1) (heap w !! 0) in
  ∃ w2, register_sky_task E J1 (on_task_deleted E deleted_task w).1 = (Returned 1, w2)
        ∧ _JOB_RESIGTRY w2 !! "J1" = Some 1.
Proof.
  intros E w deleted_task.
  destruct (teardown_reenables_registration E J1 deleted_task w
              (mkSkyPathSetting "s3://bucket/out" "host-0"))
    as (w2 & Hreg & _ & Hindex & _).
  - vm_compute. discriminate.
  - reflexivity.
  - reflexivity.
  - reflexivity.
  - exists w2. split; [exact Hreg | exact Hindex].
Defined.

(** ** Counting calls *)

Lemma count_effects_app (p : effect → bool) (l l' : list effect) :
  count_effects p (l ++ l') = count_effects p l + count_effects p l'.
Proof. unfold count_effects. by rewrite filter_app, length_app. Qed.

Lemma count_effects_snoc (p : effect → bool) (l : list effect) (e : effect) :
  count_effects p (l ++ [e]) = count_effects p l + (if p e then 1 else 0).
Proof.
  rewrite count_effects_app. f_equal. unfold count_effects.
  destruct (p e) eqn:He.
  - by rewrite filter_cons_True.
  - rewrite filter_cons_False; [done|]. by rewrite He.
Qed.

Lemma count_effects_prefix (p : effect → bool) (l l' : list effect) :
  l `prefix_of` l' → count_effects p l ≤ count_effects p l'.
Proof. intros [k ->]. rewrite count_effects_app. lia. Qed.

(** [on_task_deleted] makes at most one [sky.stop] call and does not call
    a teardown callback. *)
Lemma stops_on_task_deleted (E : SkyEnv) (deleted_task : SkyTaskFuture) (w : world) :
  count_effects is_sky_stop (trace (on_task_deleted E deleted_task w).1)
  ≤ count_effects is_sky_stop (trace w) + 1
  ∧ count_effects is_teardown (trace (on_task_deleted E deleted_task w).1)
    = count_effects is_teardown (trace w).
Proof.
  unfold on_task_deleted.
  destruct (filter _ (registry_values w)) as [|c l].
  - destruct (sky_stop E _ _) as [[]|]; cbn -[count_effects];
      destruct (SkyTaskTracker_sky_path_setting w); cbn -[count_effects];
      rewrite ?count_effects_snoc; cbn [is_sky_stop is_teardown]; lia.
  - cbn -[count_effects].
    destruct (SkyTaskTracker_sky_path_setting w); cbn -[count_effects];
      rewrite ?count_effects_snoc; cbn [is_sky_stop is_teardown]; lia.
Qed.

Lemma stops_launch_failed_callback_try (a : addr) (task : task_result) (cause : string)
    (cancel_on_done : bool) (w : world) (p : effect → bool) :
  (∀ x error, p (put_error_log x error) = false) → (∀ s, p (logger_error s) = false) →
  count_effects p (trace (launch_failed_callback_try a task cause cancel_on_done w).1.1)
  = count_effects p (trace w).
Proof.
  intros Hp1 Hp2. unfold launch_failed_callback_try. destruct task as [|error|].
  - destruct cancel_on_done; [|done].
    pose proof (trace_signal set_finished a w) as H.
    destruct (signal set_finished a w). simpl in *. by rewrite H.
  - match goal with |- context [signal set_failed a ?w'] =>
      pose proof (trace_signal set_failed a w') as H; destruct (signal set_failed a w')
    end.
    simpl in *. rewrite H, !count_effects_snoc, Hp1, Hp2. lia.
  - pose proof (trace_signal set_cancel a w) as H.
    destruct (signal set_cancel a w). simpl in *. by rewrite H.
Qed.

Lemma stops_launch_failed_callback_finally (E : SkyEnv) (a : addr) (cause : string)
    (error_cause : option string) (pending : option exn) (w : world) :
  let w' := (launch_failed_callback_finally E a cause error_cause pending w).1 in
  count_effects is_sky_stop (trace w') + count_effects is_teardown (trace w)
  ≤ count_effects is_sky_stop (trace w) + count_effects is_teardown (trace w').
Proof.
  simpl. unfold launch_failed_callback_finally.
  match goal with |- context [emit ?e w] =>
    assert (count_effects is_sky_stop (trace (emit e w)) = count_effects is_sky_stop (trace w)
            ∧ count_effects is_teardown (trace (emit e w))
              = count_effects is_teardown (trace w)) as [H2 H2']
      by (cbn [trace emit]; rewrite !count_effects_snoc; simpl; lia);
    set (w2 := emit e w) in *; clearbody w2
  end.
  destruct (heap w2 !! a) as [self|]; [|cbn [fst]; lia].
  destruct (decide (_task_status self = INIT)); [|cbn [fst]; lia].
  destruct (_event_handler self) as [eh|]; [|cbn [fst]; lia].
  destruct (is_terminal eh); [|cbn [fst]; lia].
  destruct (_cancel_callback self) as [[]|]; [|cbn -[count_effects]; lia].
  match goal with |- context [on_task_deleted E ?d ?w3] =>
    destruct (stops_on_task_deleted E d w3) as [H3 H3']; destruct (on_task_deleted E d w3)
  end.
  cbn -[count_effects] in *.
  rewrite !count_effects_snoc in H3, H3'. cbn [is_sky_stop is_teardown] in H3, H3'. lia.
Qed.

(** [register_sky_task] only makes registration calls and writes a log
    line. *)
Lemma count_register_sky_task (E : SkyEnv) (task_template : TaskTemplate) (w : world)
    (p : effect → bool) :
  (∀ e, registration_effect e = true → p e = false) →
  (∀ s, p (logger_warning s) = false) →
  count_effects p (trace (register_sky_task E task_template w).2) = count_effects p (trace w).
Proof.
  intros Hreg Hlog.
  assert (count_effects p (trace (try_first_register E task_template w))
          = count_effects p (trace w)) as H1.
  { rewrite try_first_register_eq. destruct (decide (_JOB_RESIGTRY w = ∅)); [|done].
    cbn [trace]. rewrite count_effects_app. unfold count_effects at 2.
    rewrite !filter_cons_False; [simpl; lia|..]; by rewrite Hreg. }
  unfold register_sky_task.
  set (w1 := try_first_register E task_template w) in *. clearbody w1.
  cbn -[SkyTaskFuture_init start touch_task count_effects].
  destruct (SkyTaskTracker_sky_path_setting w1) as [sp|]; [|done].
  match goal with |- context [task_exists sp ?id ?w2] => destruct (task_exists sp id w2) end.
  - cbn -[SkyTaskFuture_init count_effects]. by rewrite count_effects_snoc, Hlog, Nat.add_0_r.
  - cbn -[SkyTaskFuture_init start touch_task count_effects].
    erewrite start_spec; cycle 1.
    { cbn -[SkyTaskFuture_init]. rewrite lookup_app_r by lia. by rewrite Nat.sub_diag. }
    cbn -[SkyTaskFuture_init count_effects].
    rewrite count_effects_app, count_effects_snoc, H1, (Hreg (touch_task_call _)) by done.
    unfold count_effects at 2. rewrite !filter_cons_False; [simpl; lia|..]; by rewrite Hreg.
Qed.

Lemma stops_step (E : SkyEnv) (ev : event) (w : world) :
  count_effects is_sky_stop (trace (step E ev w)) + count_effects is_teardown (trace w)
  ≤ count_effects is_sky_stop (trace w) + count_effects is_teardown (trace (step E ev w)).
Proof.
  destruct ev as [tpl|meta now lut|a k task|a s|m|m]; simpl; try lia.
  - destruct (registry_create E tpl w) as (_ & _ & -> & _).
    rewrite !count_register_sky_task; [lia|..]; by intros [].
  - unfold delete. destruct (delete_branch meta w).
    + destruct (remote_deletion_world E meta now lut w) as [-> | [-> | ->]];
        cbn [trace emit]; rewrite !count_effects_snoc; simpl; lia.
    + unfold cancel. rewrite trace_signal. lia.
  - destruct (heap w !! a) as [c|]; [|lia].
    destruct (coro_callback k c) as [cb|]; [|lia].
    unfold launch_failed_callback.
    pose proof (stops_launch_failed_callback_try a task (cause cb) (cancel_on_done cb) w
                  is_sky_stop (fun _ _ => eq_refl) (fun _ => eq_refl)) as H1.
    pose proof (stops_launch_failed_callback_try a task (cause cb) (cancel_on_done cb) w
                  is_teardown (fun _ _ => eq_refl) (fun _ => eq_refl)) as H1'.
    destruct (launch_failed_callback_try a task (cause cb) (cancel_on_done cb) w)
      as [[w1 ec] pending].
    pose proof (stops_launch_failed_callback_finally E a (cause cb) ec pending w1) as H2.
    simpl in *. lia.
  - rewrite trace_signal. lia.
Qed.

(** X17: the provisioner's [sky.stop] is only ever called from a
    controller's teardown: over every run, the number of [sky.stop] calls
    made is at most the number of teardown callbacks called (which is at
    most one per controller). *)
Theorem stop_only_in_teardown (E : SkyEnv) (evs : list event) (w : world) :
  count_effects is_sky_stop (trace (run E evs w)) + count_effects is_teardown (trace w)
  ≤ count_effects is_sky_stop (trace w) + count_effects is_teardown (trace (run E evs w)).
Proof.
  revert w. induction evs as [|ev evs IH]; intros w; [simpl; lia|].
  simpl. pose proof (stops_step E ev w). pose proof (IH (step E ev w)). lia.
Qed.

(** Outside [register_sky_task] no registration call is made. *)
Lemma count_on_task_deleted (E : SkyEnv) (deleted_task : SkyTaskFuture) (w : world)
    (p : effect → bool) :
  (∀ e, registration_effect e = false → p e = false) →
  count_effects p (trace (on_task_deleted E deleted_task w).1) = count_effects p (trace w).
Proof.
  intros Hp. unfold on_task_deleted.
  destruct (filter _ (registry_values w)) as [|c l].
  - destruct (sky_stop E _ _) as [[]|]; cbn -[count_effects];
      destruct (SkyTaskTracker_sky_path_setting w); cbn -[count_effects];
      rewrite ?count_effects_snoc, ?Hp by done; lia.
  - cbn -[count_effects].
    destruct (SkyTaskTracker_sky_path_setting w); cbn -[count_effects];
      rewrite ?count_effects_snoc, ?Hp by done; lia.
Qed.

Lemma count_launch_failed_callback_finally (E : SkyEnv) (a : addr) (cause : string)
    (error_cause : option string) (pending : option exn) (w : world) (p : effect → bool) :
  (∀ e, registration_effect e = false → p e = false) →
  count_effects p (trace (launch_failed_callback_finally E a cause error_cause pending w).1)
  = count_effects p (trace w).
Proof.
  intros Hp. unfold launch_failed_callback_finally.
  match goal with |- context [emit ?e w] =>
    assert (count_effects p (trace (emit e w)) = count_effects p (trace w)) as H2
      by (cbn [trace emit]; rewrite count_effects_snoc, Hp by done; lia);
    set (w2 := emit e w) in *; clearbody w2
  end.
  destruct (heap w2 !! a) as [self|]; [|done].
  destruct (decide (_task_status self = INIT)); [|done].
  destruct (_event_handler self) as [eh|]; [|done].
  destruct (is_terminal eh); [|done].
  destruct (_cancel_callback self) as [[]|]; [|done].
  match goal with |- context [on_task_deleted E ?d ?w3] =>
    pose proof (count_on_task_deleted E d w3 p Hp) as H3; destruct (on_task_deleted E d w3)
  end.
  cbn -[count_effects] in *. rewrite H3, count_effects_snoc, Hp by done. lia.
Qed.

Lemma count_step_not_create (E : SkyEnv) (ev : event) (w : world) (p : effect → bool) :
  (∀ e, registration_effect e = false → p e = false) →
  (∀ task_template, ev ≠ ev_create task_template) →
  count_effects p (trace (step E ev w)) = count_effects p (trace w).
Proof.
  intros Hp Hev. destruct ev as [tpl|meta now lut|a k task|a s|m|m]; simpl; try done.
  - by destruct (Hev tpl).
  - unfold delete. destruct (delete_branch meta w).
    + destruct (remote_deletion_world E meta now lut w) as [-> | [-> | ->]];
        cbn [trace emit]; rewrite !count_effects_snoc, !Hp by done; lia.
    + unfold cancel. by rewrite trace_signal.
  - destruct (heap w !! a) as [c|]; [|done].
    destruct (coro_callback k c) as [cb|]; [|done].
    unfold launch_failed_callback.
    pose proof (stops_launch_failed_callback_try a task (cause cb) (cancel_on_done cb) w
                  p (fun x error => Hp (put_error_log x error) eq_refl)
                  (fun s => Hp (logger_error s) eq_refl)) as H1.
    destruct (launch_failed_callback_try a task (cause cb) (cancel_on_done cb) w)
      as [[w1 ec] pending].
    simpl in H1. rewrite <- H1. by apply count_launch_failed_callback_finally.
  - by rewrite trace_signal.
Qed.

(** [register_sky_task] touches the marker and starts a worker together,
    or does neither. *)
Lemma touch_and_launch_register_sky_task (E : SkyEnv) (task_template : TaskTemplate)
    (w : world) :
  let w' := (register_sky_task E task_template w).2 in
  count_effects is_process_start (trace w') + count_effects is_touch (trace w)
  = count_effects is_process_start (trace w) + count_effects is_touch (trace w').
Proof.
  assert (∀ p, p setup_cloud_credential = false → p (create_task zip_coro None) = false →
               count_effects p (trace (try_first_register E task_template w))
               = count_effects p (trace w)) as H1.
  { intros p Hs Hz. rewrite try_first_register_eq.
    destruct (decide (_JOB_RESIGTRY w = ∅)); [|done].
    cbn [trace]. rewrite count_effects_app. unfold count_effects at 2.
    rewrite !filter_cons_False; [simpl; lia|..]; by rewrite ?Hs, ?Hz. }
  pose proof (H1 is_process_start eq_refl eq_refl) as Hl.
  pose proof (H1 is_touch eq_refl eq_refl) as Ht. clear H1.
  cbv zeta. unfold register_sky_task.
  set (w1 := try_first_register E task_template w) in *. clearbody w1.
  cbn -[SkyTaskFuture_init start touch_task count_effects].
  destruct (SkyTaskTracker_sky_path_setting w1) as [sp|]; [|cbn -[count_effects]; lia].
  match goal with |- context [task_exists sp ?id ?w2] => destruct (task_exists sp id w2) end.
  - cbn -[SkyTaskFuture_init count_effects]. rewrite !count_effects_snoc. simpl. lia.
  - cbn -[SkyTaskFuture_init start touch_task count_effects].
    erewrite start_spec; cycle 1.
    { cbn -[SkyTaskFuture_init]. rewrite lookup_app_r by lia. by rewrite Nat.sub_diag. }
    cbn -[SkyTaskFuture_init count_effects].
    rewrite !count_effects_app. unfold count_effects in *. simpl. lia.
Qed.

(** X18: the agent process starts a launch worker exactly as often as it
    touches a marker: over every run, from any state, the number of
    workers started and the number of [touch_task] calls grow by the same
    amount (a job is launched only right after its marker is written, and
    a marker written by this process is always followed by a launch). *)
Theorem launches_match_touches (E : SkyEnv) (evs : list event) (w : world) :
  count_effects is_process_start (trace (run E evs w)) + count_effects is_touch (trace w)
  = count_effects is_process_start (trace w) + count_effects is_touch (trace (run E evs w)).
Proof.
  revert w. induction evs as [|ev evs IH]; intros w; [simpl; lia|].
  simpl. rewrite <- (Nat.add_cancel_r _ _ (count_effects is_touch (trace (step E ev w)))).
  assert (count_effects is_process_start (trace (step E ev w)) + count_effects is_touch (trace w)
          = count_effects is_process_start (trace w)
            + count_effects is_touch (trace (step E ev w))) as Hstep.
  { assert ((∃ tpl, ev = ev_create tpl) ∨ ∀ tpl, ev ≠ ev_create tpl) as [[tpl ->]|Hno]
      by (destruct ev; eauto).
    - simpl. destruct (registry_create E tpl w) as (_ & _ & -> & _).
      apply touch_and_launch_register_sky_task.
    - rewrite !count_step_not_create; try done; by intros []. }
  pose proof (IH (step E ev w)). lia.
Qed.

(** X19: the agent only ever uses two of the four status values: in every
    state the process can reach, every controller is [INIT] or [DONE];
    [LAUNCHING] and [RUNNING] are never assigned. *)
Theorem status_is_INIT_or_DONE (E : SkyEnv) (evs : list event) (a : addr) (c : SkyTaskFuture) :
  heap (run E evs initial_world) !! a = Some c →
  _task_status c = INIT ∨ _task_status c = DONE.
Proof.
  intros Ha.
  assert (wf (run E evs initial_world)) as Hwf by apply wf_run, wf_initial.
  by destruct (wf_ctrl _ Hwf a c Ha) as [_ Hst].
Qed.

Lemma status_is_INIT_or_DONE_witness :
  let E := example_env stop_succeeds (Returned "RUNNING") in
  let c := default (SkyTaskFuture_init E J1) (heap (run E delete_J1_then_J2 initial_world) !! 1) in
  _task_status c = INIT ∨ _task_status c = DONE.
Proof.
  intros E c.
  apply (status_is_INIT_or_DONE E delete_J1_then_J2 1 c).
  reflexivity.
Defined.
